(** * Captive Web View development harness: the HTTP bridge and the notice checker

    A shallow embedding of [harness/server.py] (path resolution, the GET and
    POST handlers, the command dispatcher and the startup sequence) and of
    [noticeChecker/noticed_file.py] (classification of a discovered notice),
    followed by the properties proved about them.

    Conventions.
    - Python [str] values are Rocq strings; [pathlib] paths are records of an
      anchor and a list of parts (POSIX flavour).
    - The file system, the working directory and the TCP stack are oracles
      gathered in [OS]; an oracle that can raise returns an [outcome].
    - Python exceptions are values of [exn]; code that can raise returns an
      [outcome].
    - JSON objects are [gmap string json]. *)

From Stdlib Require Import ZArith Ascii String List.
From stdpp Require Import base option list gmap strings.

Open Scope Z_scope.

(** ** Python strings *)

Module PyStr.

(** The double quote, used by the format strings of the source. *)
Definition dquote : string := String "034"%char EmptyString.

Definition sep : ascii := "/"%char.

(** [s[n:]] *)
Fixpoint drop (n : nat) (s : string) : string :=
  match n, s with
  | O, _ => s
  | S _, EmptyString => EmptyString
  | S n', String _ s' => drop n' s'
  end.

(** [s[:n]] *)
Fixpoint take (n : nat) (s : string) : string :=
  match n, s with
  | O, _ => EmptyString
  | S _, EmptyString => EmptyString
  | S n', String a s' => String a (take n' s')
  end.

(** [s.rfind(c)]: index of the last occurrence of [c], or -1.  The scan
    keeps the index [i] of the character at hand and the last hit. *)
Fixpoint rfind_from (c : ascii) (s : string) (i last : Z) : Z :=
  match s with
  | EmptyString => last
  | String a s' =>
      rfind_from c s' (i + 1) (if Ascii.eqb a c then i else last)
  end.

Definition rfind (c : ascii) (s : string) : Z := rfind_from c s 0 (-1).

(** [s.startswith(p)] *)
Definition startswith (s p : string) : bool := String.prefix p s.

(** [s.rpartition("/")]: split at the last separator; without one the
    result is [("", "", s)]. *)
Definition rpartition (s : string) : string * string * string :=
  let i := rfind sep s in
  if i <? 0 then (EmptyString, EmptyString, s)
  else (take (Z.to_nat i) s, String sep EmptyString, drop (Z.to_nat (i + 1)) s).

(** [s.split("/")] *)
Fixpoint split_from (s acc : string) : list string :=
  match s with
  | EmptyString => [acc]
  | String a s' =>
      if Ascii.eqb a sep then acc :: split_from s' EmptyString
      else split_from s' (acc +:+ String a EmptyString)
  end.

Definition split (s : string) : list string := split_from s EmptyString.

(** ["/".join(l)] *)
Fixpoint join (l : list string) : string :=
  match l with
  | [] => EmptyString
  | [x] => x
  | x :: l' => x +:+ String sep EmptyString +:+ join l'
  end.

(** [" ".join((a, b, c))] *)
Definition join3_space (a b c : string) : string :=
  a +:+ " " +:+ b +:+ " " +:+ c.

(** ["/" in s] *)
Fixpoint has_sep (s : string) : bool :=
  match s with
  | EmptyString => false
  | String a s' => Ascii.eqb a sep || has_sep s'
  end.

(** [os.path.basename] of [posixpath]:
    [i = p.rfind(sep) + 1; return p[i:]]. *)
Definition basename (p : string) : string :=
  let i := rfind sep p + 1 in
  drop (Z.to_nat i) p.

End PyStr.

(** ** Exceptions and outcomes *)

Inductive exn : Type :=
  | ValueError (msg : string)
  | IndexError
  | TypeError
  | OSError
  | UnicodeDecodeError.

Inductive outcome (A : Type) : Type :=
  | Return (a : A)
  | Raise (e : exn).
Arguments Return {A} a.
Arguments Raise {A} e.

(** ** Paths ([pathlib.PurePosixPath]) *)

(** The anchor of a POSIX path: none, ["/"], or ["//"], which [pathlib]
    keeps apart from ["/"] when a path starts with exactly two
    separators. *)
Inductive Anchor : Type :=
  | NoAnchor
  | Root
  | Root2.

Record PurePath : Type := MkPurePath {
  anchor : Anchor;
  parts : list string
}.

#[global] Instance Anchor_eq_dec : EqDecision Anchor.
Proof. solve_decision. Defined.

#[global] Instance PurePath_eq_dec : EqDecision PurePath.
Proof. solve_decision. Defined.

(** A relative path, or one anchored at ["/"]. *)
Definition mkPath (absolute : bool) (parts : list string) : PurePath :=
  MkPurePath (if absolute then Root else NoAnchor) parts.

(** [p.is_absolute()] *)
Definition absolute (p : PurePath) : bool :=
  match anchor p with
  | NoAnchor => false
  | Root | Root2 => true
  end.

Module Path.

(** Components of a path argument as [pathlib] parses them: empty and
    ["."] components are dropped. *)
Definition parse_parts (s : string) : list string :=
  filter (fun c => c ≠ EmptyString ∧ c ≠ ".") (PyStr.split s).

(** The anchor of a path argument: exactly two leading separators make
    the anchor ["//"], one or three and more make it ["/"]. *)
Definition parse_anchor (s : string) : Anchor :=
  if PyStr.startswith s "//" && negb (PyStr.startswith s "///") then Root2
  else if PyStr.startswith s "/" then Root
  else NoAnchor.

(** [Path(s)] *)
Definition of_string (s : string) : PurePath :=
  MkPurePath (parse_anchor s) (parse_parts s).

(** [str(p)] *)
Definition str (p : PurePath) : string :=
  match anchor p with
  | Root => "/" +:+ PyStr.join (parts p)
  | Root2 => "//" +:+ PyStr.join (parts p)
  | NoAnchor =>
      match parts p with
      | [] => "."
      | _ => PyStr.join (parts p)
      end
  end.

(** [p.joinpath(s)]: an absolute argument replaces [p]. *)
Definition joinpath (p : PurePath) (s : string) : PurePath :=
  if PyStr.startswith s "/" then of_string s
  else MkPurePath (anchor p) (parts p ++ parse_parts s).

(** Longest common prefix of two part lists. *)
Fixpoint common_prefix (a b : list string) : list string :=
  match a, b with
  | x :: a', y :: b' =>
      if decide (x = y) then x :: common_prefix a' b' else []
  | _, _ => []
  end.

(** [os.path.commonpath]: raises [ValueError] on an empty sequence and
    when absolute and relative paths are mixed; otherwise the longest
    common run of leading components.  It works on the string forms,
    where a leading ["//"] counts as ["/"]: the result is relative or
    anchored at ["/"]. *)
Definition commonpath (paths : list PurePath) : outcome PurePath :=
  match paths with
  | [] => Raise (ValueError "commonpath() arg is an empty sequence")
  | p :: ps =>
      if forallb (fun q => Bool.eqb (absolute q) (absolute p)) ps
      then Return (mkPath (absolute p)
                     (fold_left common_prefix (map parts ps) (parts p)))
      else Raise (ValueError "Can't mix absolute and relative paths")
  end.

(** [l] without its prefix [pre], when it has that prefix. *)
Fixpoint strip_prefix (pre l : list string) : option (list string) :=
  match pre, l with
  | [], _ => Some l
  | x :: pre', y :: l' =>
      if decide (x = y) then strip_prefix pre' l' else None
  | _ :: _, [] => None
  end.

(** [p.relative_to(other)]: the anchors must be the same and the parts of
    [other] must start those of [p]. *)
Definition relative_to (p other : PurePath) : outcome PurePath :=
  if decide (anchor p = anchor other) then
    match strip_prefix (parts other) (parts p) with
    | Some rest => Return (mkPath false rest)
    | None => Raise (ValueError "not in the subpath")
    end
  else Raise (ValueError "not in the subpath").

End Path.

(** ** The operating system, as the server sees it *)

Record OS : Type := mkOS {
  (* [Path.is_file]: an answer, or the [OSError] it lets through, as for a
     name that is too long or a directory that cannot be searched *)
  is_file : PurePath -> outcome bool;
  is_dir : PurePath -> bool;    (* [Path.is_dir] *)
  resolve : string -> PurePath; (* [Path(s).resolve()] *)
  (* [chdir(p)] followed by [Path.cwd()]: the working directory reported
     afterwards, or the [OSError] of [chdir] *)
  chdir : PurePath -> outcome PurePath;
  can_bind : Z -> bool          (* whether the port can be bound on localhost *)
}.

(** ** class Server *)

Record Server : Type := mkServer {
  directories : list PurePath;
  relativePaths : list PurePath
}.

(** The loop of [path_for_file]: index of the first directory under which
    [filename] is a regular file. *)
Fixpoint first_with_file (os : OS) (filename : string)
    (dirs : list PurePath) (index : nat) : outcome (option nat) :=
  match dirs with
  | [] => Return None
  | directory :: rest =>
      match is_file os (Path.joinpath directory filename) with
      | Raise e => Raise e
      | Return true => Return (Some index)
      | Return false => first_with_file os filename rest (S index)
      end
  end.

Definition not_found_message (filename : string) : string :=
  "File " +:+ PyStr.dquote +:+ filename +:+ PyStr.dquote +:+ " not found.".

(** The name [path_for_file] searches for. *)
Definition effective_name (filename : string) : string :=
  let filename := PyStr.basename filename in
  if decide (filename = EmptyString) then "index.html" else filename.

Definition path_for_file (os : OS) (self : Server) (filename : string)
    : outcome PurePath :=
  let filename := PyStr.basename filename in
  let filename :=
    if decide (filename = EmptyString) then "index.html" else filename in
  match first_with_file os filename (directories self) 0 with
  | Raise e => Raise e
  | Return (Some index) =>
      match relativePaths self !! index with
      | Some relative => Return (Path.joinpath relative filename)
      | None => Raise IndexError
      end
  | Return None => Raise (ValueError (not_found_message filename))
  end.

(** What the process does at startup, in order. *)
Inductive boot_event : Type :=
  | SocketOpened (port : Z)      (* [Server(('localhost', port), Handler)] *)
  | Banner                       (* [print(self.server.start_message)] *)
  | Chdir (directory : PurePath)
  | ServeLoop (server : Server)  (* [super().serve_forever()] *)
  | BootRaise (e : exn).

(** [relativePaths]: every directory relative to [fromDir], in order. *)
Fixpoint relative_all (fromDir : PurePath) (dirs : list PurePath)
    : outcome (list PurePath) :=
  match dirs with
  | [] => Return []
  | directory :: rest =>
      match Path.relative_to directory fromDir with
      | Raise e => Raise e
      | Return r =>
          match relative_all fromDir rest with
          | Raise e => Raise e
          | Return rs => Return (r :: rs)
          end
      end
  end.

(** [serve_forever]: change to the common parent, read the working
    directory back, compute the relative paths once against it, then
    enter the inherited loop. *)
Definition serve_forever (os : OS) (dirs : list PurePath)
    : list boot_event :=
  match Path.commonpath dirs with
  | Raise e => [BootRaise e]
  | Return common =>
      match chdir os common with
      | Raise e => [BootRaise e]
      | Return fromDir =>
          Chdir common ::
          match relative_all fromDir dirs with
          | Raise e => [BootRaise e]
          | Return rels => [ServeLoop (mkServer dirs rels)]
          end
      end
  end.

(** ** JSON values *)

#[local] Set Warnings "-register-all".

Inductive json : Type :=
  | JNull                              (* Python [None] *)
  | JBool (b : bool)
  | JInt (z : Z)
  | JStr (s : string)
  | JArr (items : list json)
  | JObj (entries : gmap string json). (* Python [dict] *)

(** ** class Handler: what a request makes the handler do *)

Inductive event : Type :=
  | LogRootResource (path : string)
  | LogResponsePath (path : string) (responsePath : PurePath)
      (directoryIndex : option nat)
  | LogPostObject (content : json)
  | LogResponseObject (responseObject : gmap string json)
      (responseBytes : string)
  | SendError (code : Z) (message : option string)
  | SendResponse (code : Z)
  | EndHeaders
  | WfileWrite (responseBytes : string)
  | StaticGET (path : string)   (* [super().do_GET()] on the rewritten path *)
  | RfileRead (length : Z)
  | JsonLoads (text : string)
  | HandlerCall (index : nat)
  | Uncaught (e : exn).

(** The first test of [do_GET]: nothing before the last separator. *)
Definition is_root_resource (path : string) : bool :=
  let parted := PyStr.rpartition path in
  bool_decide (parted.1.1 = EmptyString)
  && (bool_decide (parted.1.2 = "/") || bool_decide (parted.1.2 = EmptyString)).

(** [self.path[1:] if self.path.startswith("/") else self.path] *)
Definition effective_path (path : string) : string :=
  if PyStr.startswith path "/" then PyStr.drop 1 path else path.

(** The prefix loop of [do_GET]: index of the first relative path whose
    string form starts the effective path. *)
Fixpoint first_prefix (effectivePath : string) (prefixes : list PurePath)
    (index : nat) : option nat :=
  match prefixes with
  | [] => None
  | prefix :: rest =>
      if PyStr.startswith effectivePath (Path.str prefix) then Some index
      else first_prefix effectivePath rest (S index)
  end.

(** The tail of [do_GET], once a response path is known. *)
Definition serve (path : string) (responsePath : PurePath)
    (directoryIndex : option nat) : list event :=
  [LogResponsePath path responsePath directoryIndex;
   StaticGET (Path.str responsePath)].

Definition do_GET (os : OS) (server : Server) (path : string) : list event :=
  if is_root_resource path then
    LogRootResource path ::
    match path_for_file os server path with
    | Raise (ValueError error) => [SendError 404 (Some error)]
    | Raise e => [Uncaught e]
    | Return responsePath => serve path responsePath None
    end
  else
    let effectivePath := effective_path path in
    match first_prefix effectivePath (relativePaths server) 0 with
    | None => [SendError 403 None]
    | Some directoryIndex =>
        match path_for_file os server path with
        | Raise (ValueError error) => [SendError 404 (Some error)]
        | Raise e => [Uncaught e]
        | Return responsePath => serve path responsePath (Some directoryIndex)
        end
    end.

(** ** Python [int(str)] on header values

    A header value is decoded as ISO-8859-1, one character for every byte,
    which is how the strings here are read.  Surrounding white space is
    stripped, one sign is allowed, and digits may be grouped with single
    underscores.  The white space of [int] is that of [str.isspace]: among
    the first 256 characters these are 9 to 13, 28 to 32, 133 and 160; the
    only decimal digits there are the ASCII ones.  The limit an
    interpreter may set on the number of digits is not modelled. *)

Module PyInt.

Definition is_space (a : ascii) : bool :=
  let n := nat_of_ascii a in
  ((Nat.leb 9 n && Nat.leb n 13) || (Nat.leb 28 n && Nat.leb n 32)
   || Nat.eqb n 133 || Nat.eqb n 160)%bool.

Definition is_digit (a : ascii) : bool :=
  let n := nat_of_ascii a in (Nat.leb 48 n && Nat.leb n 57)%bool.

Fixpoint lstrip (s : string) : string :=
  match s with
  | EmptyString => EmptyString
  | String a s' => if is_space a then lstrip s' else s
  end.

Definition strip (s : string) : string :=
  String.rev (lstrip (String.rev (lstrip s))).

(** Value of a digit string; [after_digit] tells whether the previous
    character was a digit, which an underscore and the end both need. *)
Fixpoint digits (s : string) (acc : Z) (after_digit : bool) : option Z :=
  match s with
  | EmptyString => if after_digit then Some acc else None
  | String a s' =>
      if is_digit a
      then digits s' (10 * acc + (Z.of_nat (nat_of_ascii a) - 48)) true
      else if Ascii.eqb a "_"
           then (if after_digit then digits s' acc false else None)
           else None
  end.

(** [None] stands for the [ValueError] of [int]. *)
Definition int (s : string) : option Z :=
  match strip s with
  | String "+" s' => digits s' 0 false
  | String "-" s' => Z.opp <$> digits s' 0 false
  | s' => digits s' 0 false
  end.

End PyInt.

(** ** The POST side: command handlers, the dispatcher, [do_POST] *)

Record Request : Type := mkRequest {
  req_path : string;                   (* ignored by [do_POST] *)
  content_length : option string;      (* [headers.get('Content-Length')] *)
  body : string                        (* the bytes [rfile] delivers *)
}.

Section Dispatch.

(** Everything a command handler can reach besides the command object:
    the connection, module globals, its own state. *)
Variable World : Type.

(** [httpHandler.server_version] and [httpHandler.sys_version]. *)
Variable server_version sys_version : World -> string.

(** [self.__class__.__name__] of the [Main] instance. *)
Variable class_name : string.

(** Library functions: [bytes.decode('utf-8')], [json.loads] (both [None]
    when they raise) and [json.dumps(...).encode()]. *)
Variable decode_utf8 : string -> option string.
Variable json_loads : string -> option json.
Variable json_dumps : gmap string json -> string.

(** The handler's trace so far, and the world. *)
Record State : Type := mkState {
  events : list event;
  world : World
}.

(** Computations that log events, change the world and may raise. *)
Definition M (A : Type) : Type := State -> outcome A * State.

#[local] Instance M_ret : MRet M := fun A a st => (Return a, st).

#[local] Instance M_bind : MBind M := fun A B k m st =>
  match m st with
  | (Return a, st') => k a st'
  | (Raise e, st') => (Raise e, st')
  end.

Definition raise {A} (e : exn) : M A := fun st => (Raise e, st).

Definition emit (ev : event) : M unit :=
  fun st => (Return tt, mkState (events st ++ [ev]) (world st)).

Definition get_world : M World := fun st => (Return (world st), st).

(** [try: m  except: h; raise] *)
Definition try_except_reraise {A} (m : M A) (h : M unit) : M A :=
  fun st =>
    match m st with
    | (Return a, st') => (Return a, st')
    | (Raise e, st') =>
        match h st' with
        | (Return _, st'') => (Raise e, st'')
        | (Raise e', st'') => (Raise e', st'')
        end
    end.

(** A command handler: given the command object and the world, it
    returns a response object or [None], or raises; it may have changed
    the command object and the world. *)
Definition CommandHandler : Type :=
  json -> World -> outcome (option (gmap string json)) * json * World.

Definition call (index : nat) (handle : CommandHandler) (commandObject : json)
    : M (option (gmap string json) * json) :=
  fun st =>
    match handle commandObject (world st) with
    | (Return response, commandObject', w') =>
        (Return (response, commandObject'),
         mkState (events st ++ [HandlerCall index]) w')
    | (Raise e, _, w') =>
        (Raise e, mkState (events st ++ [HandlerCall index]) w')
    end.

(** The [for handle in self._commandHandlers] loop: the first response
    that is not [None] ends it.  The command object is returned as the
    handlers left it. *)
Fixpoint handle_loop (handlers : list CommandHandler) (index : nat)
    (commandObject : json) : M (option (gmap string json) * json) :=
  match handlers with
  | [] => mret (None, commandObject)
  | handle :: rest =>
      r ← call index handle commandObject;
      match r.1 with
      | Some response => mret (Some response, r.2)
      | None => handle_loop rest (S index) r.2
      end
  end.

(** Every handler of the chain returns [None]: the command object and
    the world as the chain leaves them, when that is the case. *)
Fixpoint all_decline (handlers : list CommandHandler)
    (commandObject : json) (w : World) : option (json * World) :=
  match handlers with
  | [] => Some (commandObject, w)
  | handle :: rest =>
      match handle commandObject w with
      | (Return None, commandObject', w') =>
          all_decline rest commandObject' w'
      | _ => None
      end
  end.

(** [{ **commandObject, "failed": "Unhandled." }]; unpacking anything
    but a mapping raises [TypeError]. *)
Definition unhandled (commandObject : json) : M (gmap string json) :=
  match commandObject with
  | JObj entries => mret (<["failed" := JStr "Unhandled."]> entries)
  | _ => raise TypeError
  end.

Definition confirm_text (w : World) : string :=
  PyStr.join3_space class_name (server_version w) (sys_version w).

(** The last statement but one of [handle_command]. *)
Definition add_confirm (response : gmap string json)
    : M (gmap string json) :=
  if decide (("failed" ∉ dom response) ∧ ("confirm" ∉ dom response))
  then (w ← get_world;
        mret (<["confirm" := JStr (confirm_text w)]> response))
  else mret response.

(** The response chosen by the loop, or the synthesized one. *)
Definition choose_response (handlers : list CommandHandler)
    (commandObject : json) : M (gmap string json) :=
  r ← handle_loop handlers 0 commandObject;
  match r.1 with
  | None => unhandled r.2
  | Some response => mret response
  end.

(** [Main.handle_command].  The result is a Python value that can be
    [None] as far as its caller knows, hence the [option]. *)
Definition handle_command (handlers : list CommandHandler)
    (commandObject : json) : M (option (gmap string json)) :=
  response ← choose_response handlers commandObject;
  response ← add_confirm response;
  mret (Some response).

Definition _send_object (responseObject : gmap string json) : M unit :=
  let responseBytes := json_dumps responseObject in
  emit (LogResponseObject responseObject responseBytes);;
  emit (SendResponse 200);;
  emit EndHeaders;;
  emit (WfileWrite responseBytes).

Definition do_POST (handlers : list CommandHandler) (request : Request)
    : M unit :=
  contentLength ←
    match content_length request with
    | None => mret 0
    | Some header =>
        match PyInt.int header with
        | Some n => mret n
        | None => raise (ValueError "invalid literal for int()")
        end
    end;
  contentJSON ←
    (if 0 <? contentLength
     then (emit (RfileRead contentLength);;
           match decode_utf8 (PyStr.take (Z.to_nat contentLength)
                                (body request)) with
           | Some text => mret (Some text)
           | None => raise UnicodeDecodeError
           end)
     else mret None);
  content ←
    match contentJSON with
    | None => mret JNull
    | Some text =>
        emit (JsonLoads text);;
        match json_loads text with
        | Some value => mret value
        | None => raise (ValueError "JSONDecodeError")
        end
    end;
  emit (LogPostObject content);;
  match content with
  | JNull => emit (SendError 400 None)
  | _ =>
      try_except_reraise
        (response ← handle_command handlers content;
         match response with
         | Some responseObject => _send_object responseObject
         | None => mret tt
         end)
        (emit (SendError 501 None))
  end.

(** One POST request, from an empty trace: the trace, closed by the
    exception that escaped the handler if one did, and the world. *)
Definition serve_POST (handlers : list CommandHandler) (request : Request)
    (w : World) : list event * World :=
  match do_POST handlers request (mkState [] w) with
  | (Return _, st) => (events st, world st)
  | (Raise e, st) => (events st ++ [Uncaught e], world st)
  end.

(** The state in which the chain starts, for a body that was read,
    decoded and parsed. *)
Definition dispatch_start (n : Z) (text : string) (content : json)
    (w : World) : State :=
  mkState [RfileRead n; JsonLoads text; LogPostObject content] w.

(** A request whose body is read, decoded and parsed into [content]. *)
Definition parses_to (request : Request) (n : Z) (text : string)
    (content : json) : Prop :=
  (exists header, content_length request = Some header
                  /\ PyInt.int header = Some n)
  /\ 0 < n
  /\ decode_utf8 (PyStr.take (Z.to_nat n) (body request)) = Some text
  /\ json_loads text = Some content.

End Dispatch.

(** ** class Main: startup *)

(** The parsed command line. *)
Record Namespace : Type := mkNamespace {
  arg_port : Z;
  arg_directories : list string
}.

(** [p.parents[1]]: the parent of the parent; [IndexError] when the path is
    too short to have one. *)
Definition parents1 (p : PurePath) : outcome PurePath :=
  if decide (2 <= length (parts p))%nat
  then Return (MkPurePath (anchor p)
                 (take (length (parts p) - 2) (parts p)))
  else Raise IndexError.

(** [server_directories]: the directories of the command line, resolved,
    then the library resources next to the module.  [module_file] is
    [Path(__file__).resolve()]. *)
Definition server_directories (os : OS) (module_file : PurePath)
    (arguments : Namespace) : outcome (list PurePath) :=
  match parents1 module_file with
  | Raise e => Raise e
  | Return top =>
      Return (map (resolve os) (arg_directories arguments)
              ++ [MkPurePath (anchor top)
                    (parts top ++ ["Sources"; "CaptiveWebView";
                                   "Resources"; "library"])])
  end.

Definition not_a_directory_message (directory : PurePath) : string :=
  "Not a directory " +:+ PyStr.dquote +:+ Path.str directory
  +:+ PyStr.dquote +:+ ".".

(** [Main.__call__] *)
Definition Main_call (os : OS) (module_file : PurePath)
    (arguments : Namespace) : list boot_event :=
  match server_directories os module_file arguments with
  | Raise e => [BootRaise e]
  | Return dirs =>
      match find (fun directory => negb (is_dir os directory)) dirs with
      | Some directory =>
          [BootRaise (ValueError (not_a_directory_message directory))]
      | None => Banner :: serve_forever os dirs
      end
  end.

(** [Main.__init__]: constructing the [Server] binds the port and starts
    listening, as [socketserver.TCPServer] does on construction. *)
Definition Main_init (os : OS) (arguments : Namespace) : list boot_event :=
  if can_bind os (arg_port arguments)
  then [SocketOpened (arg_port arguments)]
  else [BootRaise OSError].

(** [Main(prog, description, argv)()]: construction, then the call when
    construction did not raise. *)
Definition startup (os : OS) (module_file : PurePath)
    (arguments : Namespace) : list boot_event :=
  if can_bind os (arg_port arguments)
  then Main_init os arguments ++ Main_call os module_file arguments
  else Main_init os arguments.

(** ** noticeChecker/noticed_file.py *)

Module NoticeChecker.

Inductive NoticeState : Type :=
  | EXEMPT
  | MISSING
  | CORRECT
  | INCORRECT_DATE
  | ERROR.

(** [datetime.date] *)
Record date : Type := mkDate {
  year : Z;
  month : Z;
  day : Z
}.

(** Modelled from the spec: [DiscoveredNotice] is declared in
    noticeChecker/copyright_notice.py, which is not among the sources at
    hand.  The fields are the ones noticed_file.py reads; a style or a
    year that was not found is [None]. *)
Record DiscoveredNotice : Type := mkNotice {
  notice_path : PurePath;
  notice_style : option string;
  notice_year : option Z;
  notice_suffix : option string
}.

Record NoticedFile : Type := mkNoticedFile {
  path : PurePath;
  modifiedDate : option date;
  notice : option DiscoveredNotice;
  state : NoticeState;
  exception : option exn
}.

Definition with_exception (self : NoticedFile) (e : exn) : NoticedFile :=
  mkNoticedFile (path self) (modifiedDate self) (notice self) (state self)
    (Some e).

Definition from_exempt_path (p : PurePath) : NoticedFile :=
  mkNoticedFile p None None EXEMPT None.

Section FromNotice.

(** [datetime.date.fromtimestamp(p.stat().st_mtime)] *)
Variable stat_date : PurePath -> outcome date.

(** The functions of noticeChecker/git_cli.py, which is not among the
    sources at hand either. *)
Variable git_is_different : PurePath -> outcome bool.
Variable git_modified_date : PurePath -> outcome date.

(** [DiscoveredNotice.from_path] *)
Variable discover : PurePath -> outcome DiscoveredNotice.

(** [notice.year != modifiedDate.year] *)
Definition year_differs (claimed : option Z) (modified : date) : bool :=
  negb (bool_decide (claimed = Some (year modified))).

Definition from_notice (n : DiscoveredNotice) : outcome NoticedFile :=
  match stat_date (notice_path n) with
  | Raise e => Raise e
  | Return statDate =>
      match git_is_different (notice_path n) with
      | Raise e => Raise e
      | Return different =>
          let modified :=
            if different then statDate
            else match git_modified_date (notice_path n) with
                 | Return d => d
                 | Raise _ => statDate
                 end in
          Return (mkNoticedFile (notice_path n) (Some modified)
                    (match notice_style n with
                     | None => None
                     | Some _ => Some n
                     end)
                    (match notice_style n with
                     | None => MISSING
                     | Some _ =>
                         if year_differs (notice_year n) modified
                         then INCORRECT_DATE
                         else CORRECT
                     end)
                    None)
      end
  end.

Definition from_path (p : PurePath) : outcome NoticedFile :=
  let attempt :=
    match discover p with
    | Raise e => Raise e
    | Return n => from_notice n
    end in
  match attempt with
  | Raise UnicodeDecodeError =>
      Return (mkNoticedFile p None None ERROR (Some UnicodeDecodeError))
  | r => r
  end.

End FromNotice.

End NoticeChecker.

(** ** [Server.start_message]: the wrapped list of directories

    [directory_lines] is the generator nested in [start_message]; the
    strings it yields are gathered in a list.  The diagnostic transcript,
    which is never yielded, is left out. *)

Module StartMessage.

Definition newline : string := String "010"%char EmptyString.

(** [" " * n] *)
Fixpoint spaces (n : nat) : string :=
  match n with
  | O => EmptyString
  | S n' => String " "%char (spaces n')
  end.

(** ["{:<{indent}}".format(s, indent=indent)]: [s] padded with spaces on
    the right to [indent] characters. *)
Definition ljust (s : string) (indent : nat) : string :=
  s +:+ spaces (indent - String.length s).

(** [directory.parts]: for an absolute path the anchor comes first. *)
Definition py_parts (p : PurePath) : list string :=
  match anchor p with
  | NoAnchor => parts p
  | Root => "/" :: parts p
  | Root2 => "//" :: parts p
  end.

(** What the loop over the legs appends, leg by leg: the anchor is skipped
    and every leg but the one of index 0 gets a separator in front. *)
Fixpoint appends_from (index : nat) (legs : list string) : list string :=
  match legs with
  | [] => []
  | leg :: rest =>
      (if decide (leg = "/" /\ index = 0%nat) then []
       else [(if decide (index = 0%nat) then "" else "/") +:+ leg])
      ++ appends_from (S index) rest
  end.

Record LineState : Type := mkLine {
  first : bool;
  lineLen : nat
}.

(** One pass through the body of [while True]: the strings yielded, the
    variables afterwards, and whether the pass ended in [break]. *)
Definition pass (width indent : nat) (append : string) (st : LineState)
    : list string * LineState * bool :=
  let appendLen := String.length append in
  let '(yielded, lineLen1, lineStart) :=
    if decide (lineLen st = 0%nat) then
      let line := ljust (if first st then ">" else "") indent in
      ([newline; line], (lineLen st + String.length line)%nat, true)
    else ([], lineLen st, false) in
  if decide (width < lineLen1 + appendLen)%nat then
    (yielded ++ (if lineStart then [append] else []),
     mkLine false 0, lineStart)
  else
    (yielded ++ [append], mkLine (first st) (lineLen1 + appendLen), true).

(** [while True], with a bound on the number of passes; [None] when the
    bound is reached. *)
Fixpoint while_true (fuel width indent : nat) (append : string)
    (st : LineState) : option (list string * LineState) :=
  match fuel with
  | O => None
  | S fuel' =>
      let '(yielded, st', stop) := pass width indent append st in
      if (stop : bool) then Some (yielded, st')
      else match while_true fuel' width indent append st' with
           | Some (more, st'') => Some (yielded ++ more, st'')
           | None => None
           end
  end.

(** The loop over the legs of one directory. *)
Fixpoint legs_loop (fuel width indent : nat) (appends : list string)
    (st : LineState) : option (list string) :=
  match appends with
  | [] => Some []
  | append :: rest =>
      match while_true fuel width indent append st with
      | None => None
      | Some (yielded, st') =>
          match legs_loop fuel width indent rest st' with
          | None => None
          | Some more => Some (yielded ++ more)
          end
      end
  end.

(** [directory_lines(width, indent)]: every directory starts with
    [first = True] and [lineLen = 0]. *)
Fixpoint directory_lines (fuel width indent : nat) (dirs : list PurePath)
    : option (list string) :=
  match dirs with
  | [] => Some []
  | directory :: rest =>
      match legs_loop fuel width indent
              (appends_from 0 (py_parts directory)) (mkLine true 0) with
      | None => None
      | Some yielded =>
          match directory_lines fuel width indent rest with
          | None => None
          | Some more => Some (yielded ++ more)
          end
      end
  end.

(** Widths of the lines of a yielded sequence: a yielded newline closes the
    line at hand, of width [cur] so far. *)
Fixpoint line_widths (cur : nat) (yielded : list string) : list nat :=
  match yielded with
  | [] => [cur]
  | chunk :: rest =>
      if decide (chunk = newline) then cur :: line_widths 0 rest
      else line_widths (cur + String.length chunk) rest
  end.

(** The yielded strings that are legs: they start with a separator. *)
Definition legs_of (yielded : list string) : list string :=
  filter (fun chunk => PyStr.startswith chunk "/" = true) yielded.

(** [''.join(l)] *)
Fixpoint concat (l : list string) : string :=
  match l with
  | [] => EmptyString
  | x :: l' => x +:+ concat l'
  end.

End StartMessage.

(** ** Concrete configurations

    The layout used in the examples: two content roots under [/app]. *)

Module Scenario.

Definition web : PurePath := Path.of_string "/app/web".
Definition lib : PurePath := Path.of_string "/app/lib".

Definition roots : list PurePath := [web; lib].

(** The server as [serve_forever] leaves it for these roots. *)
Definition server : Server :=
  mkServer roots [mkPath false ["web"]; mkPath false ["lib"]].

(** A machine with exactly these regular files and directories. *)
Definition machine (files dirs : list string) : OS :=
  mkOS (fun p => Return (bool_decide (p ∈ map Path.of_string files)))
       (fun p => bool_decide (p ∈ map Path.of_string dirs))
       Path.of_string
       (fun p => Return p)
       (fun _ => true).

Definition lib_only : OS :=
  machine ["/app/lib/index.html"] ["/app"; "/app/web"; "/app/lib"].

Definition both : OS :=
  machine ["/app/web/index.html"; "/app/lib/index.html"]
          ["/app"; "/app/web"; "/app/lib"].

Definition favicon : OS :=
  machine ["/app/web/favicon.ico"; "/app/web/index.html"]
          ["/app"; "/app/web"; "/app/lib"].

Definition bare : OS := machine [] ["/app"; "/app/web"; "/app/lib"].

(** A name of 300 characters, and a machine with no file on which
    [is_file] lets the [OSError] of a component longer than 255 characters
    through. *)
Fixpoint letters (n : nat) : string :=
  match n with
  | O => EmptyString
  | S n' => String "a"%char (letters n')
  end.

Definition long_name : string := letters 300.

(** A machine whose working directory is reported under [/home/user]:
    relative directories are looked up from there. *)
Definition elsewhere : OS :=
  mkOS (fun p => Return false)
       (fun p => true)
       Path.of_string
       (fun p => Return (MkPurePath Root (["home"; "user"] ++ parts p)))
       (fun _ => true).

Definition overlong : OS :=
  mkOS (fun p =>
          if existsb (fun part => Nat.ltb 255 (String.length part)) (parts p)
          then Raise OSError else Return false)
       (fun p => true)
       Path.of_string
       (fun p => Return p)
       (fun _ => true).

(** Command handlers over a world that counts the calls made. *)
Definition decline : CommandHandler nat :=
  fun commandObject w => (Return None, commandObject, S w).

Definition answer_x : CommandHandler nat :=
  fun commandObject w =>
    (Return (Some {["x" := JInt 1]}), commandObject, S w).

Definition ping : gmap string json := {["command" := JStr "ping"]}.

Definition crash : CommandHandler nat :=
  fun commandObject w => (Raise (ValueError "boom"), commandObject, S w).

(** Stand-ins for the library: bytes decode to themselves unless they are
    ["?"], and four texts are known to the parser. *)
Definition decode (bytes : string) : option string :=
  if decide (bytes = "?") then None else Some bytes.

Definition loads (text : string) : option json :=
  if decide (text = "null") then Some JNull
  else if decide (text = "[1]") then Some (JArr [JInt 1])
  else if decide (text = "{}") then Some (JObj ping)
  else None.

Definition dumps (response : gmap string json) : string := "{...}".

Definition version (w : nat) : string := "SimpleHTTP/0.6".
Definition runtime (w : nat) : string := "Python/3".

(** Startup of [/repo/harness/server.py] on a machine where the web root
    was never created. *)
Definition module_file : PurePath := Path.of_string "/repo/harness/server.py".


Definition command_line : Namespace := mkNamespace 8001 ["/app/web"].

(** A directory too long for a banner twelve characters wide. *)
Definition long_directory : PurePath :=
  Path.of_string "/app/web/abcdefgh/xy".


(** A file with a notice for 2022, last committed in 2022 and untouched
    since, on a disk that stamps it 2023. *)
Definition noticed : NoticeChecker.DiscoveredNotice :=
  NoticeChecker.mkNotice (Path.of_string "/repo/harness/server.py")
    (Some "#") (Some 2022) (Some "Omnissa, LLC.").

Definition on_disk (p : PurePath) : outcome NoticeChecker.date :=
  Return (NoticeChecker.mkDate 2023 5 17).

Definition unchanged (p : PurePath) : outcome bool := Return false.

Definition committed (p : PurePath) : outcome NoticeChecker.date :=
  Return (NoticeChecker.mkDate 2022 11 2).

(** A scanner whose file cannot be decoded. *)
Definition undecodable (p : PurePath)
    : outcome NoticeChecker.DiscoveredNotice := Raise UnicodeDecodeError.

Definition discovered (p : PurePath)
    : outcome NoticeChecker.DiscoveredNotice := Return noticed.

Definition no_history (p : PurePath) : outcome NoticeChecker.date :=
  Raise OSError.

End Scenario.

(** * Properties *)

(** ** Strings *)

Module PyStrFacts.
Import PyStr.

Lemma rfind_from_range c s i last :
  last < i ->
  rfind_from c s i last = last \/ i <= rfind_from c s i last.
Proof.
  revert i last. induction s as [|a s IH]; intros i last Hlt; simpl.
  - by left.
  - destruct (Ascii.eqb a c).
    + right. destruct (IH (i + 1) i) as [->|]; lia.
    + destruct (IH (i + 1) last) as [->|]; [lia | by left | right; lia].
Qed.

Lemma rfind_from_no_hit s i last :
  has_sep s = false -> rfind_from sep s i last = last.
Proof.
  revert i last. induction s as [|a s IH]; intros i last; simpl; [done|].
  intros [Ha Hs]%orb_false_iff. rewrite Ha. by apply IH.
Qed.

Lemma rfind_from_last_no_sep s i last :
  last < i -> rfind_from sep s i last = last -> has_sep s = false.
Proof.
  revert i last. induction s as [|a s IH]; intros i last Hlt; simpl; [done|].
  destruct (Ascii.eqb a sep); simpl.
  - intros Heq. destruct (rfind_from_range sep s (i + 1) i); lia.
  - apply IH. lia.
Qed.

(** What is left after the last separator holds no separator. *)
Lemma drop_after_rfind_no_sep s i last :
  last < i ->
  has_sep (drop (Z.to_nat (rfind_from sep s i last + 1 - i)) s) = false.
Proof.
  revert i last. induction s as [|a s IH]; intros i last Hlt.
  - simpl. by destruct (Z.to_nat _).
  - cbn [rfind_from].
    set (last' := if Ascii.eqb a sep then i else last).
    assert (Hlast' : last' < i + 1) by (subst last'; destruct (Ascii.eqb a sep); lia).
    destruct (rfind_from_range sep s (i + 1) last' Hlast') as [Heq|Hge].
    + destruct (Ascii.eqb a sep) eqn:Ha; subst last'.
      * rewrite Heq. replace (Z.to_nat (i + 1 - i)) with 1%nat by lia.
        simpl. eapply rfind_from_last_no_sep; [|exact Heq]. lia.
      * rewrite Heq. replace (Z.to_nat (last + 1 - i)) with 0%nat by lia.
        simpl. rewrite Ha. simpl.
        eapply rfind_from_last_no_sep; [|exact Heq]. lia.
    + replace (Z.to_nat (rfind_from sep s (i + 1) last' + 1 - i))
        with (S (Z.to_nat (rfind_from sep s (i + 1) last' + 1 - (i + 1))))
        by lia.
      simpl. by apply IH.
Qed.

Lemma basename_no_sep p : has_sep (basename p) = false.
Proof.
  unfold basename, rfind.
  replace (rfind_from sep p 0 (-1) + 1)
    with (rfind_from sep p 0 (-1) + 1 - 0) by lia.
  apply drop_after_rfind_no_sep. lia.
Qed.

Lemma basename_of_no_sep p : has_sep p = false -> basename p = p.
Proof.
  intros H. unfold basename, rfind. by rewrite rfind_from_no_hit.
Qed.

Lemma basename_idempotent p : basename (basename p) = basename p.
Proof. apply basename_of_no_sep, basename_no_sep. Qed.

End PyStrFacts.

(** ** Path resolution *)

Lemma effective_name_basename filename :
  effective_name (PyStr.basename filename) = effective_name filename.
Proof.
  unfold effective_name. by rewrite PyStrFacts.basename_idempotent.
Qed.

Lemma effective_name_idempotent filename :
  effective_name (effective_name filename) = effective_name filename.
Proof.
  assert (effective_name filename = "index.html"
          \/ effective_name filename = PyStr.basename filename) as [H|H].
  { unfold effective_name. case_decide; auto. }
  - rewrite H. reflexivity.
  - rewrite H at 1. apply effective_name_basename.
Qed.

(** [path_for_file] in terms of the name it searches for. *)
Lemma path_for_file_unfold os self filename :
  path_for_file os self filename =
  match first_with_file os (effective_name filename) (directories self) 0 with
  | Raise e => Raise e
  | Return (Some index) =>
      match relativePaths self !! index with
      | Some relative =>
          Return (Path.joinpath relative (effective_name filename))
      | None => Raise IndexError
      end
  | Return None =>
      Raise (ValueError (not_found_message (effective_name filename)))
  end.
Proof. reflexivity. Qed.

Lemma path_for_file_effective os self filename :
  path_for_file os self (effective_name filename)
  = path_for_file os self filename.
Proof. by rewrite !path_for_file_unfold, effective_name_idempotent. Qed.

Lemma first_with_file_found os name dirs k i directory :
  dirs !! i = Some directory ->
  is_file os (Path.joinpath directory name) = Return true ->
  (forall j d, (j < i)%nat -> dirs !! j = Some d ->
     is_file os (Path.joinpath d name) = Return false) ->
  first_with_file os name dirs k = Return (Some (k + i)%nat).
Proof.
  revert k i. induction dirs as [|d0 dirs IH]; intros k i Hi Hfile Hbefore.
  - by rewrite lookup_nil in Hi.
  - destruct i as [|i]; simpl in *.
    + injection Hi as ->. rewrite Hfile. do 2 f_equal. lia.
    + rewrite (Hbefore 0%nat d0); [|lia|done].
      replace (k + S i)%nat with (S k + i)%nat by lia.
      apply IH; [done|done|].
      intros j d Hj Hd. apply (Hbefore (S j) d); [lia|done].
Qed.

Lemma first_with_file_none os name dirs k :
  (forall d, d ∈ dirs -> is_file os (Path.joinpath d name) = Return false) ->
  first_with_file os name dirs k = Return None.
Proof.
  revert k. induction dirs as [|d0 dirs IH]; intros k Hall; simpl; [done|].
  rewrite Hall by apply list_elem_of_here.
  apply IH. intros d Hd. apply Hall. by apply list_elem_of_further.
Qed.

Lemma first_prefix_none effectivePath prefixes k :
  (forall r, r ∈ prefixes ->
     PyStr.startswith effectivePath (Path.str r) = false) ->
  first_prefix effectivePath prefixes k = None.
Proof.
  revert k. induction prefixes as [|r0 prefixes IH]; intros k Hall; simpl;
    [done|].
  rewrite Hall by apply list_elem_of_here.
  apply IH. intros r Hr. apply Hall. by apply list_elem_of_further.
Qed.

(** A request is for a root resource exactly when no separator follows
    the first character of its path. *)
Lemma is_root_resource_no_directory path :
  is_root_resource path = negb (PyStr.has_sep (PyStr.drop 1 path)).
Proof.
  unfold is_root_resource, PyStr.rpartition, PyStr.rfind.
  destruct path as [|a s]; [reflexivity|].
  cbn [PyStr.rfind_from PyStr.drop].
  set (last := if Ascii.eqb a PyStr.sep then 0 else -1).
  assert (Hlast : last < 0 + 1) by (subst last; destruct (Ascii.eqb a _); lia).
  destruct (PyStr.has_sep s) eqn:Hs.
  - destruct (PyStrFacts.rfind_from_range PyStr.sep s (0 + 1) last Hlast)
      as [Heq|Hge].
    + apply PyStrFacts.rfind_from_last_no_sep in Heq; [congruence|done].
    + destruct (Z.ltb_spec (PyStr.rfind_from PyStr.sep s (0 + 1) last) 0);
        [lia|].
      destruct (Z.to_nat (PyStr.rfind_from PyStr.sep s (0 + 1) last)) eqn:Hn;
        [lia|].
      reflexivity.
  - rewrite PyStrFacts.rfind_from_no_hit by done.
    subst last. by destruct (Ascii.eqb a PyStr.sep).
Qed.

(** C5. [path_for_file("")] and [path_for_file("/")] are
    [path_for_file("index.html")]; in general the file name is reduced to
    its base name before the search, and an empty base name stands for
    ["index.html"]. *)
Theorem path_for_file_default_document os self :
  path_for_file os self "" = path_for_file os self "index.html"
  /\ path_for_file os self "/" = path_for_file os self "index.html"
  /\ (forall filename,
        path_for_file os self filename
        = path_for_file os self (PyStr.basename filename))
  /\ (forall filename,
        PyStr.basename filename = "" ->
        path_for_file os self filename = path_for_file os self "index.html").
Proof.
  split; [reflexivity|]. split; [reflexivity|]. split.
  - intros filename.
    by rewrite !path_for_file_unfold, effective_name_basename.
  - intros filename Hbase. rewrite !path_for_file_unfold.
    unfold effective_name at 1 2 3. rewrite Hbase. reflexivity.
Qed.

(** C1. When a file name is a regular file under several roots,
    [path_for_file] answers with the relative path of the root of lowest
    index joined with the base name.  The answer is a function of the file
    system, the server and the name alone, and the search covers every
    root: a GET that passed the prefix test at any index [k] is served from
    the first root that holds the base name. *)
Theorem path_for_file_lowest_index os self filename i directory relative :
  directories self !! i = Some directory ->
  relativePaths self !! i = Some relative ->
  is_file os (Path.joinpath directory (effective_name filename))
  = Return true ->
  (forall j d, (j < i)%nat -> directories self !! j = Some d ->
     is_file os (Path.joinpath d (effective_name filename)) = Return false) ->
  path_for_file os self filename
  = Return (Path.joinpath relative (effective_name filename))
  /\ (forall k,
        is_root_resource filename = false ->
        first_prefix (effective_path filename) (relativePaths self) 0
        = Some k ->
        do_GET os self filename
        = [LogResponsePath filename
             (Path.joinpath relative (effective_name filename)) (Some k);
           StaticGET
             (Path.str (Path.joinpath relative (effective_name filename)))]).
Proof.
  intros Hdir Hrel Hfile Hbefore.
  assert (Hpath : path_for_file os self filename
                  = Return (Path.joinpath relative (effective_name filename))).
  { rewrite path_for_file_unfold.
    rewrite (first_with_file_found os _ _ 0 i directory) by done.
    simpl. by rewrite Hrel. }
  split; [exact Hpath|].
  intros k Hroot Hprefix. unfold do_GET. by rewrite Hroot, Hprefix, Hpath.
Qed.

(** The scenario of the specification: [GET /web/index.html] when only
    [/app/lib/index.html] exists. *)
Lemma path_for_file_lowest_index_witness :
  path_for_file Scenario.lib_only Scenario.server "/web/index.html"
  = Return (mkPath false ["lib"; "index.html"])
  /\ (forall k,
        is_root_resource "/web/index.html" = false ->
        first_prefix (effective_path "/web/index.html")
          (relativePaths Scenario.server) 0 = Some k ->
        do_GET Scenario.lib_only Scenario.server "/web/index.html"
        = [LogResponsePath "/web/index.html"
             (mkPath false ["lib"; "index.html"]) (Some k);
           StaticGET "lib/index.html"]).
Proof.
  apply (path_for_file_lowest_index Scenario.lib_only Scenario.server
           "/web/index.html" 1 Scenario.lib (mkPath false ["lib"])).
  - reflexivity.
  - reflexivity.
  - vm_compute. reflexivity.
  - intros j d Hj Hd. destruct j as [|j]; [|lia].
    injection Hd as <-. vm_compute. reflexivity.
Defined.

(** With [index.html] under both roots the first root wins, whichever
    prefix the request carries. *)
Lemma path_for_file_both_roots :
  path_for_file Scenario.both Scenario.server "/lib/index.html"
  = Return (mkPath false ["web"; "index.html"])
  /\ do_GET Scenario.both Scenario.server "/lib/index.html"
     = [LogResponsePath "/lib/index.html"
          (mkPath false ["web"; "index.html"]) (Some 1%nat);
        StaticGET "web/index.html"].
Proof. split; reflexivity. Qed.

(** C6, as stated, does not hold: with no file anywhere, the message of
    the 404 for [/web/missing.html] is the text of the error, which is
    neither the requested path nor its base name.  And a name that is a
    regular file under no root need not end in a 404 at all: for a name
    too long for the file system, [is_file] raises, the [OSError] leaves
    [path_for_file] and [do_GET], and no response is sent. *)
Lemma not_found_message_differs_from_filename :
  (forall d, d ∈ directories Scenario.server ->
     is_file Scenario.bare
       (Path.joinpath d (effective_name "/web/missing.html")) = Return false)
  /\ path_for_file Scenario.bare Scenario.server "/web/missing.html"
     = Raise (ValueError (not_found_message "missing.html"))
  /\ do_GET Scenario.bare Scenario.server "/web/missing.html"
     = [SendError 404 (Some (not_found_message "missing.html"))]
  /\ not_found_message "missing.html" <> "/web/missing.html"
  /\ not_found_message "missing.html" <> "missing.html"
  /\ (forall d, d ∈ directories Scenario.server ->
        is_file Scenario.overlong
          (Path.joinpath d (effective_name ("/web/" +:+ Scenario.long_name)))
        <> Return true)
  /\ path_for_file Scenario.overlong Scenario.server
       ("/web/" +:+ Scenario.long_name)
     = Raise OSError
  /\ do_GET Scenario.overlong Scenario.server
       ("/web/" +:+ Scenario.long_name)
     = [Uncaught OSError].
Proof.
  split; [intros d Hd; reflexivity|].
  do 4 (split; [by vm_compute|]).
  split; [|by vm_compute].
  apply Forall_forall. repeat constructor; by vm_compute.
Qed.

(** C6, amended.  When [is_file] answers [False] for the searched name
    (the base name, or ["index.html"] for an empty one) under every root,
    [path_for_file] raises [ValueError] with the text
    [File "<searched name>" not found.], and [do_GET], for a root resource
    or a path that passed the prefix test, sends 404 with that text as
    message. *)
Theorem path_for_file_not_found os self filename :
  (forall d, d ∈ directories self ->
     is_file os (Path.joinpath d (effective_name filename)) = Return false) ->
  path_for_file os self filename
  = Raise (ValueError (not_found_message (effective_name filename)))
  /\ (is_root_resource filename = true ->
      do_GET os self filename
      = [LogRootResource filename;
         SendError 404 (Some (not_found_message (effective_name filename)))])
  /\ (is_root_resource filename = false ->
      is_Some (first_prefix (effective_path filename)
                 (relativePaths self) 0) ->
      do_GET os self filename
      = [SendError 404 (Some (not_found_message (effective_name filename)))]).
Proof.
  intros Hnone.
  assert (Hpath : path_for_file os self filename
            = Raise (ValueError
                       (not_found_message (effective_name filename)))).
  { rewrite path_for_file_unfold. by rewrite first_with_file_none. }
  split; [exact Hpath|]. split.
  - intros Hroot. unfold do_GET. by rewrite Hroot, Hpath.
  - intros Hroot [k Hk]. unfold do_GET. by rewrite Hroot, Hk, Hpath.
Qed.

Lemma path_for_file_not_found_witness :
  path_for_file Scenario.bare Scenario.server "/web/missing.html"
  = Raise (ValueError (not_found_message "missing.html"))
  /\ (is_root_resource "/web/missing.html" = true ->
      do_GET Scenario.bare Scenario.server "/web/missing.html"
      = [LogRootResource "/web/missing.html";
         SendError 404 (Some (not_found_message "missing.html"))])
  /\ (is_root_resource "/web/missing.html" = false ->
      is_Some (first_prefix (effective_path "/web/missing.html")
                 (relativePaths Scenario.server) 0) ->
      do_GET Scenario.bare Scenario.server "/web/missing.html"
      = [SendError 404 (Some (not_found_message "missing.html"))]).
Proof.
  apply (path_for_file_not_found Scenario.bare Scenario.server
           "/web/missing.html").
  intros d Hd. reflexivity.
Defined.

(** C2, as stated, does not hold: [/favicon.ico] starts with no relative
    root once its leading separator is stripped, yet it is a root resource
    and is served from the first root that holds it. *)
Lemma root_resource_not_forbidden :
  (forall r, r ∈ relativePaths Scenario.server ->
     PyStr.startswith (effective_path "/favicon.ico") (Path.str r) = false)
  /\ do_GET Scenario.favicon Scenario.server "/favicon.ico"
     = [LogRootResource "/favicon.ico";
        LogResponsePath "/favicon.ico"
          (mkPath false ["web"; "favicon.ico"]) None;
        StaticGET "web/favicon.ico"]
  /\ do_GET Scenario.favicon Scenario.server "/favicon.ico"
     <> [SendError 403 None].
Proof.
  split; [|by vm_compute].
  apply Forall_forall. repeat constructor.
Qed.

(** C2, amended.  A GET whose path has a separator after its first
    character and, once a single leading separator is stripped, starts with
    the string form of no relative root is answered 403 and nothing else,
    whatever the file system holds. *)
Theorem do_GET_forbidden os self path :
  PyStr.has_sep (PyStr.drop 1 path) = true ->
  (forall r, r ∈ relativePaths self ->
     PyStr.startswith (effective_path path) (Path.str r) = false) ->
  do_GET os self path = [SendError 403 None].
Proof.
  intros Hsep Hnone. unfold do_GET.
  rewrite is_root_resource_no_directory, Hsep. simpl.
  by rewrite first_prefix_none.
Qed.

Lemma do_GET_forbidden_witness :
  is_file Scenario.both (Path.of_string "/app/web/index.html") = Return true
  /\ do_GET Scenario.both Scenario.server "/other/index.html"
     = [SendError 403 None].
Proof.
  split; [reflexivity|].
  apply (do_GET_forbidden Scenario.both Scenario.server "/other/index.html").
  - reflexivity.
  - apply Forall_forall. repeat constructor.
Defined.

(** ** The command dispatcher and [do_POST] *)

Section DispatchFacts.

Context {World : Type}.
Context (server_version sys_version : World -> string).
Context (class_name : string).
Context (decode_utf8 : string -> option string).
Context (json_loads : string -> option json).
Context (json_dumps : gmap string json -> string).

Ltac unfold_dispatch :=
  unfold handle_command, choose_response, add_confirm, serve_POST, do_POST
    in *.

Abbreviation handle_command :=
  (handle_command World server_version sys_version class_name).
Abbreviation choose_response := (choose_response World).
Abbreviation add_confirm :=
  (add_confirm World server_version sys_version class_name).
Abbreviation confirm_text :=
  (confirm_text World server_version sys_version class_name).
Abbreviation serve_POST :=
  (serve_POST World server_version sys_version class_name
     decode_utf8 json_loads json_dumps).

Ltac unfold_monad :=
  unfold mbind, M_bind, mret, M_ret, raise, get_world, emit in *.

(** A chain that declines runs to its end: every handler is called, in
    order, and the loop ends without a response. *)
Lemma handle_loop_all_decline handlers index commandObject st c' w' :
  all_decline World handlers commandObject (world World st) = Some (c', w') ->
  handle_loop World handlers index commandObject st
  = (Return (None, c'),
     mkState World
       (events World st ++ (HandlerCall <$> seq index (length handlers)))
       w').
Proof.
  revert index commandObject st.
  induction handlers as [|handle rest IH]; intros index c st Hall.
  - simpl in *. injection Hall as <- <-. unfold_monad.
    rewrite app_nil_r. by destruct st.
  - simpl in Hall. cbn [handle_loop]. unfold_monad. unfold call.
    destruct (handle c (world World st)) as [[[[r|]|e] c1] w1]; try done.
    simpl.
    rewrite (IH (S index) c1
               (mkState World (events World st ++ [HandlerCall index]) w1)
               Hall).
    simpl. by rewrite <- app_assoc.
Qed.

(** An exception that leaves the loop was raised by one of the
    handlers. *)
Lemma handle_loop_raise handlers index commandObject st e st' :
  handle_loop World handlers index commandObject st = (Raise e, st') ->
  exists handle c w c',
    handle ∈ handlers /\ handle c w = (Raise e, c', world World st').
Proof.
  revert index commandObject st.
  induction handlers as [|handle rest IH]; intros index c st.
  - simpl. unfold_monad. done.
  - cbn [handle_loop]. unfold_monad. unfold call.
    destruct (handle c (world World st)) as [[[[r|]|e0] c1] w1] eqn:Hh;
      simpl.
    + done.
    + intros (h & c0 & w0 & c0' & Hin & Hraise)%IH.
      exists h, c0, w0, c0'. split; [by apply list_elem_of_further|done].
    + intros [= <- <-]. exists handle, c, (world World st), c1.
      split; [apply list_elem_of_here|done].
Qed.

(** A loop that ends without a response went through a chain that
    declined. *)
Lemma handle_loop_none handlers index commandObject st c' st' :
  handle_loop World handlers index commandObject st
  = (Return (None, c'), st') ->
  all_decline World handlers commandObject (world World st)
  = Some (c', world World st').
Proof.
  revert index commandObject st.
  induction handlers as [|handle rest IH]; intros index c st.
  - simpl. unfold_monad. by intros [= <- <-].
  - cbn [handle_loop all_decline]. unfold_monad. unfold call.
    destruct (handle c (world World st)) as [[[[r|]|e] c1] w1]; simpl;
      [done| |done].
    intros Hloop. by apply IH in Hloop.
Qed.

(** The last step of [handle_command], on the response at hand. *)
Lemma handle_command_unfold handlers commandObject st :
  handle_command handlers commandObject st
  = match choose_response handlers commandObject st with
    | (Return chosen, st') =>
        (Return
           (Some (if decide (("failed" ∉ dom chosen)
                             ∧ ("confirm" ∉ dom chosen))
                  then <["confirm" := JStr (confirm_text (world World st'))]>
                         chosen
                  else chosen)),
         st')
    | (Raise e, st') => (Raise e, st')
    end.
Proof.
  unfold_dispatch. unfold_monad.
  destruct (handle_loop World handlers 0 commandObject st)
    as [[[[r|] c]|e] st']; simpl; [by case_decide| |done].
  destruct (unhandled World c st') as [[chosen|e] st'']; simpl; [|done].
  by case_decide.
Qed.

(** Handlers that return [None] and leave the command object alone
    make a chain that declines and leaves it alone. *)
Lemma all_decline_untouched handlers commandObject w :
  Forall (fun handle : CommandHandler World =>
            forall w0, exists w1,
              handle commandObject w0 = (Return None, commandObject, w1))
    handlers ->
  exists w',
    all_decline World handlers commandObject w = Some (commandObject, w').
Proof.
  intros Hall. revert w.
  induction Hall as [|handle rest Hhandle _ IH]; intros w; simpl.
  - by eexists.
  - destruct (Hhandle w) as [w1 ->]. apply IH.
Qed.

(** C3. When every handler returns [None], [handle_command] returns the
    entries of the command object, as the handlers left them, with
    ["failed"] bound to ["Unhandled."]: that mapping and nothing more, so
    no ["confirm"] entry is added.  Every handler was called, in order. *)
Theorem handle_command_unhandled handlers entries st entries' w' :
  all_decline World handlers (JObj entries) (world World st)
  = Some (JObj entries', w') ->
  handle_command handlers (JObj entries) st
  = (Return (Some (<["failed" := JStr "Unhandled."]> entries')),
     mkState World
       (events World st ++ (HandlerCall <$> seq 0 (length handlers)))
       w')
  /\ (<["failed" := JStr "Unhandled."]> entries' : gmap string json)
       !! "confirm" = entries' !! "confirm".
Proof.
  intros Hall. split.
  - rewrite handle_command_unfold. unfold_dispatch.
    unfold_monad.
    rewrite (handle_loop_all_decline _ _ _ _ _ _ Hall). simpl.
    rewrite decide_False; [done|].
    intros [Hfailed _]. apply Hfailed, elem_of_dom.
    rewrite lookup_insert_eq. by eexists.
  - by rewrite lookup_insert_ne.
Qed.

(** The same for handlers that do not touch the command object: the
    response is the command received plus the ["failed"] entry. *)
Lemma handle_command_unhandled_untouched handlers entries st :
  Forall (fun handle : CommandHandler World =>
            forall w0, exists w1,
              handle (JObj entries) w0 = (Return None, JObj entries, w1))
    handlers ->
  exists st',
    handle_command handlers (JObj entries) st
    = (Return (Some (<["failed" := JStr "Unhandled."]> entries)), st').
Proof.
  intros Hall.
  destruct (all_decline_untouched _ _ (world World st) Hall) as [w' Hrun].
  eexists. rewrite handle_command_unfold. unfold_dispatch. unfold_monad.
  rewrite (handle_loop_all_decline _ _ _ _ _ _ Hrun). simpl.
  rewrite decide_False; [done|].
  intros [Hfailed _]. apply Hfailed, elem_of_dom.
  rewrite lookup_insert_eq. by eexists.
Qed.

(** C4. On the response chosen by the chain or synthesized, a
    ["confirm"] entry is added exactly when the response has neither a
    ["failed"] nor a ["confirm"] key; with either key the response is
    returned as it is; in both cases every entry it had is kept. *)
Theorem handle_command_confirm handlers commandObject st chosen st' :
  choose_response handlers commandObject st = (Return chosen, st') ->
  exists response,
    handle_command handlers commandObject st = (Return (Some response), st')
    /\ ((chosen !! "confirm" = None
         /\ response
            = <["confirm" := JStr (confirm_text (world World st'))]> chosen)
        <-> (("failed" ∉ dom chosen) /\ ("confirm" ∉ dom chosen)))
    /\ (("failed" ∈ dom chosen) \/ ("confirm" ∈ dom chosen) ->
        response = chosen)
    /\ (forall k v, chosen !! k = Some v -> response !! k = Some v).
Proof.
  intros Hchosen. rewrite handle_command_unfold, Hchosen.
  eexists; split; [reflexivity|].
  case_decide as Hkeys.
  - destruct Hkeys as [Hfailed Hconfirm]. split; [|split].
    + split; [done|]. intros _. split; [|done].
      by apply not_elem_of_dom.
    + intros [?|?]; done.
    + intros k v Hk. rewrite lookup_insert_ne; [done|].
      intros <-. apply Hconfirm, elem_of_dom. by eexists.
  - split; [|split].
    + split; [|done]. intros [Hnone Heq]. exfalso.
      apply (f_equal (fun m : gmap string json => m !! "confirm")) in Heq.
      rewrite lookup_insert_eq in Heq. congruence.
    + done.
    + done.
Qed.

(** C10. Whatever the command and the chain, [handle_command] either
    returns a mapping (never [None]) that holds ["failed"] or
    ["confirm"], or raises: then a handler raised that exception, or
    every handler declined and the command is not a mapping. *)
Theorem handle_command_status_key handlers commandObject st :
  (exists response st',
     handle_command handlers commandObject st
     = (Return (Some response), st')
     /\ (("failed" ∈ dom response) \/ ("confirm" ∈ dom response)))
  \/ (exists e st',
        handle_command handlers commandObject st = (Raise e, st')
        /\ ((exists handle c w c',
               handle ∈ handlers
               /\ handle c w = (Raise e, c', world World st'))
            \/ (e = TypeError
                /\ exists c,
                     all_decline World handlers commandObject
                       (world World st) = Some (c, world World st')
                     /\ forall entries, c <> JObj entries))).
Proof.
  rewrite handle_command_unfold. unfold_dispatch.
  unfold_monad.
  destruct (handle_loop World handlers 0 commandObject st)
    as [[[[r|] c]|e] st'] eqn:Hloop; simpl.
  - left. eexists _, _. split; [reflexivity|].
    case_decide as Hkeys.
    + right. apply elem_of_dom. rewrite lookup_insert_eq. by eexists.
    + apply not_and_l in Hkeys as [H|H]; apply dec_stable in H; auto.
  - apply handle_loop_none in Hloop.
    destruct c as [| | | | |entries]; simpl;
      try (right; eexists _, _; split; [reflexivity|]; right;
           split; [reflexivity|]; eexists; split; [exact Hloop|done]).
    left. eexists _, _. split.
    + rewrite decide_False; [reflexivity|].
      intros [Hfailed _]. apply Hfailed, elem_of_dom.
      rewrite lookup_insert_eq. by eexists.
    + left. apply elem_of_dom. rewrite lookup_insert_eq. by eexists.
  - right. eexists _, _. split; [reflexivity|]. left.
    by apply handle_loop_raise in Hloop.
Qed.


End DispatchFacts.

(** The example of the specification: a handler that answers [{"x": 1}]
    gets a ["confirm"] entry next to it. *)
Lemma handle_command_answer_x :
  handle_command nat Scenario.version Scenario.runtime "Main"
    [Scenario.decline; Scenario.answer_x; Scenario.decline]
    (JObj Scenario.ping) (mkState nat [] 0%nat)
  = (Return (Some (<["confirm" := JStr "Main SimpleHTTP/0.6 Python/3"]>
                     {["x" := JInt 1]})),
     mkState nat [HandlerCall 0; HandlerCall 1] 2%nat).
Proof. reflexivity. Qed.

Lemma handle_command_unhandled_witness :
  handle_command nat Scenario.version Scenario.runtime "Main"
    [Scenario.decline; Scenario.decline]
    (JObj Scenario.ping) (mkState nat [] 0%nat)
  = (Return (Some (<["failed" := JStr "Unhandled."]> Scenario.ping)),
     mkState nat [HandlerCall 0; HandlerCall 1] 2%nat)
  /\ (<["failed" := JStr "Unhandled."]> Scenario.ping : gmap string json)
       !! "confirm" = Scenario.ping !! "confirm".
Proof.
  apply (handle_command_unhandled Scenario.version Scenario.runtime "Main"
           [Scenario.decline; Scenario.decline] Scenario.ping
           (mkState nat [] 0%nat) Scenario.ping 2%nat).
  reflexivity.
Defined.

Lemma handle_command_confirm_witness :
  exists response,
    handle_command nat Scenario.version Scenario.runtime "Main"
      [Scenario.answer_x] (JObj Scenario.ping) (mkState nat [] 0%nat)
    = (Return (Some response), mkState nat [HandlerCall 0] 1%nat)
    /\ response !! "x" = Some (JInt 1)
    /\ response !! "confirm" = Some (JStr "Main SimpleHTTP/0.6 Python/3").
Proof.
  destruct (handle_command_confirm Scenario.version Scenario.runtime "Main"
              [Scenario.answer_x] (JObj Scenario.ping) (mkState nat [] 0%nat)
              {["x" := JInt 1]} (mkState nat [HandlerCall 0] 1%nat))
    as (response & Hrun & Hadded & _ & Hkept).
  - reflexivity.
  - exists response. split; [exact Hrun|]. split.
    + apply Hkept. reflexivity.
    + destruct Hadded as [_ Hadded].
      destruct Hadded as [_ ->]; [|reflexivity].
      split; apply not_elem_of_dom; reflexivity.
Defined.


(** A POST with a body, for contrast: the body is read and parsed, the
    chain runs and the response is written. *)
Lemma do_POST_with_body :
  serve_POST nat Scenario.version Scenario.runtime "Main"
    (fun bytes => Some bytes) (fun text => Some (JObj Scenario.ping))
    (fun response => "{}")
    [Scenario.decline] (mkRequest "/command" (Some "2") "{}") 0%nat
  = ([RfileRead 2; JsonLoads "{}"; LogPostObject (JObj Scenario.ping);
      HandlerCall 0;
      LogResponseObject (<["failed" := JStr "Unhandled."]> Scenario.ping) "{}";
      SendResponse 200; EndHeaders; WfileWrite "{}"], 1%nat).
Proof. reflexivity. Qed.

(** ** Startup *)




(** With every directory in place the same command line gets as far as the
    serving loop, with the relative paths computed once. *)
Lemma startup_serves :
  startup (Scenario.machine []
             ["/app/web"; "/repo/Sources/CaptiveWebView/Resources/library"])
    Scenario.module_file Scenario.command_line
  = [SocketOpened 8001; Banner; Chdir (mkPath true []);
     ServeLoop
       (mkServer
          [Path.of_string "/app/web";
           Path.of_string "/repo/Sources/CaptiveWebView/Resources/library"]
          [mkPath false ["app"; "web"];
           mkPath false ["repo"; "Sources"; "CaptiveWebView"; "Resources";
                         "library"]])].
Proof. reflexivity. Qed.

Lemma serve_forever_scenario :
  serve_forever Scenario.both Scenario.roots
  = [Chdir (Path.of_string "/app"); ServeLoop Scenario.server].
Proof. reflexivity. Qed.

(** ** The notice checker *)

Section NoticeFacts.
Import NoticeChecker.

Context (stat_date : PurePath -> outcome date).
Context (git_is_different : PurePath -> outcome bool).
Context (git_modified_date : PurePath -> outcome date).

(** C9. A discovered notice is classified [MISSING] when it has no
    style, [INCORRECT_DATE] when it has one and its year is not the year
    of the modification date, and [CORRECT] otherwise.  The modification
    date is the one of the file system when the file differs from the
    repository; otherwise it is the one of the history, or the one of
    the file system when the history cannot be read. *)
Theorem from_notice_state n statDate different :
  stat_date (notice_path n) = Return statDate ->
  git_is_different (notice_path n) = Return different ->
  let modified :=
    if different then statDate
    else match git_modified_date (notice_path n) with
         | Return d => d
         | Raise _ => statDate
         end in
  exists file,
    from_notice stat_date git_is_different git_modified_date n
    = Return file
    /\ path file = notice_path n
    /\ modifiedDate file = Some modified
    /\ (notice_style n = None -> state file = MISSING)
    /\ (notice_style n <> None ->
        notice_year n <> Some (year modified) ->
        state file = INCORRECT_DATE)
    /\ (notice_style n <> None ->
        notice_year n = Some (year modified) ->
        state file = CORRECT).
Proof.
  intros Hstat Hdiff modified. unfold from_notice.
  rewrite Hstat, Hdiff. fold modified.
  eexists. split; [reflexivity|]. simpl.
  split; [done|]. split; [done|].
  unfold year_differs.
  destruct (notice_style n) as [style|]; repeat split; try done.
  - intros _ Hyear. by rewrite bool_decide_eq_false_2.
  - intros _ Hyear. by rewrite bool_decide_eq_true_2.
Qed.

End NoticeFacts.

Lemma from_notice_state_witness :
  exists file,
    NoticeChecker.from_notice Scenario.on_disk Scenario.unchanged
      Scenario.committed Scenario.noticed = Return file
    /\ NoticeChecker.path file = Path.of_string "/repo/harness/server.py"
    /\ NoticeChecker.modifiedDate file
       = Some (NoticeChecker.mkDate 2022 11 2)
    /\ NoticeChecker.state file = NoticeChecker.CORRECT.
Proof.
  destruct (from_notice_state Scenario.on_disk Scenario.unchanged
              Scenario.committed Scenario.noticed
              (NoticeChecker.mkDate 2023 5 17) false)
    as (file & Hrun & Hpath & Hdate & _ & _ & Hcorrect).
  - reflexivity.
  - reflexivity.
  - exists file. split; [exact Hrun|]. split; [exact Hpath|].
    split; [exact Hdate|]. apply Hcorrect; [discriminate|reflexivity].
Defined.

(** * Further properties *)

#[local] Set Warnings "-clear-no-such-hyp".

(** ** More on path resolution and GET *)

Lemma first_with_file_some os name dirs k n :
  first_with_file os name dirs k = Return (Some n) ->
  exists i directory,
    n = (k + i)%nat
    /\ dirs !! i = Some directory
    /\ is_file os (Path.joinpath directory name) = Return true
    /\ (forall j d, (j < i)%nat -> dirs !! j = Some d ->
          is_file os (Path.joinpath d name) = Return false).
Proof.
  revert k. induction dirs as [|d0 dirs IH]; intros k; simpl; [done|].
  destruct (is_file os (Path.joinpath d0 name)) as [[|]|e] eqn:Hd0; [| |done].
  - intros [= <-]. exists 0%nat, d0. split; [lia|]. split; [done|].
    split; [done|]. intros j d Hj. lia.
  - intros (i & directory & -> & Hi & Hfile & Hbefore)%IH.
    exists (S i), directory. split; [lia|]. split; [done|]. split; [done|].
    intros [|j] d Hj Hd; simpl in Hd.
    + by injection Hd as <-.
    + apply (Hbefore j d); [lia|done].
Qed.

Lemma first_with_file_none_inv os name dirs k :
  first_with_file os name dirs k = Return None ->
  forall d, d ∈ dirs -> is_file os (Path.joinpath d name) = Return false.
Proof.
  revert k. induction dirs as [|d0 dirs IH]; intros k; simpl.
  - intros _ d Hd. by apply elem_of_nil in Hd.
  - destruct (is_file os (Path.joinpath d0 name)) as [[|]|e] eqn:Hd0;
      [done| |done].
    intros Hrest d [->|Hd]%elem_of_cons; [done|]. by eapply IH.
Qed.

(** An exception that leaves the search was raised by [is_file], for a
    directory before which every directory answered [False]. *)
Lemma first_with_file_raise os name dirs k e :
  first_with_file os name dirs k = Raise e ->
  exists i directory,
    dirs !! i = Some directory
    /\ is_file os (Path.joinpath directory name) = Raise e
    /\ (forall j d, (j < i)%nat -> dirs !! j = Some d ->
          is_file os (Path.joinpath d name) = Return false).
Proof.
  revert k. induction dirs as [|d0 dirs IH]; intros k; simpl; [done|].
  destruct (is_file os (Path.joinpath d0 name)) as [[|]|e0] eqn:Hd0; [done| |].
  - intros (i & directory & Hi & Hraise & Hbefore)%IH.
    exists (S i), directory. split; [done|]. split; [done|].
    intros [|j] d Hj Hd; simpl in Hd.
    + by injection Hd as <-.
    + apply (Hbefore j d); [lia|done].
  - intros [= <-]. exists 0%nat, d0. split; [done|]. split; [done|].
    intros j d Hj. lia.
Qed.

Lemma first_prefix_some effectivePath prefixes k n :
  first_prefix effectivePath prefixes k = Some n ->
  exists i r,
    n = (k + i)%nat
    /\ prefixes !! i = Some r
    /\ PyStr.startswith effectivePath (Path.str r) = true.
Proof.
  revert k. induction prefixes as [|r0 prefixes IH]; intros k; simpl; [done|].
  destruct (PyStr.startswith effectivePath (Path.str r0)) eqn:Hr0.
  - intros [= <-]. exists 0%nat, r0. split; [lia|done].
  - intros (i & r & -> & Hi & Hr)%IH. exists (S i), r. split; [lia|done].
Qed.

Lemma first_prefix_none_inv effectivePath prefixes k :
  first_prefix effectivePath prefixes k = None ->
  forall r, r ∈ prefixes ->
    PyStr.startswith effectivePath (Path.str r) = false.
Proof.
  revert k. induction prefixes as [|r0 prefixes IH]; intros k; simpl.
  - intros _ r Hr. by apply elem_of_nil in Hr.
  - destruct (PyStr.startswith effectivePath (Path.str r0)) eqn:Hr0; [done|].
    intros Hrest r [->|Hr]%elem_of_cons; [done|]. by eapply IH.
Qed.

(** The searched name is never empty and holds no separator. *)
Lemma effective_name_no_sep filename :
  PyStr.has_sep (effective_name filename) = false.
Proof.
  unfold effective_name. case_decide; [reflexivity|].
  apply PyStrFacts.basename_no_sep.
Qed.

Lemma effective_name_nonempty filename : effective_name filename <> "".
Proof. unfold effective_name. by case_decide. Qed.

Lemma append_empty_r (s : string) : s +:+ "" = s.
Proof.
  induction s as [|a s IH]; [done|].
  change (String a (s +:+ "") = String a s). by rewrite IH.
Qed.

Lemma append_char_l (acc : string) a s :
  (acc +:+ String a "") +:+ s = acc +:+ String a s.
Proof.
  induction acc as [|b acc IH]; [done|].
  change (String b ((acc +:+ String a "") +:+ s)
          = String b (acc +:+ String a s)).
  by rewrite IH.
Qed.

Lemma split_from_no_sep s acc :
  PyStr.has_sep s = false -> PyStr.split_from s acc = [acc +:+ s].
Proof.
  revert acc. induction s as [|a s IH]; intros acc; simpl.
  - intros _. by rewrite append_empty_r.
  - intros [Ha Hs]%orb_false_iff. rewrite Ha, IH by done.
    by rewrite append_char_l.
Qed.

Lemma startswith_sep_no_sep s :
  PyStr.has_sep s = false -> PyStr.startswith s "/" = false.
Proof.
  destruct s as [|a s]; [done|]. simpl.
  intros [Ha _]%orb_false_iff. unfold PyStr.startswith.
  destruct (String.prefix "/" (String a s)) eqn:Hp; [|done].
  apply prefix_correct in Hp. cbn in Hp. injection Hp as -> _.
  exfalso. revert Ha. by vm_compute.
Qed.

(** Joining a path with a name that holds no separator appends that name
    as one component, or nothing when the name is ["."] or empty. *)
Lemma joinpath_no_sep p name :
  PyStr.has_sep name = false ->
  Path.joinpath p name
  = MkPurePath (anchor p)
      (parts p ++ if decide (name = "" \/ name = ".") then [] else [name]).
Proof.
  intros Hname. unfold Path.joinpath.
  rewrite startswith_sep_no_sep by done. f_equal. f_equal.
  unfold Path.parse_parts, PyStr.split. rewrite split_from_no_sep by done.
  change ("" +:+ name) with name. rewrite filter_cons, filter_nil.
  destruct (decide (name = "" \/ name = ".")) as [Hd|Hd].
  - rewrite decide_False; [done|]. intros [? ?]. by destruct Hd.
  - rewrite decide_True; [done|]. split; intros ->; apply Hd; auto.
Qed.

(** X1. [do_GET] takes a request for a root resource exactly when no
    separator follows the first character of the path: [""], ["/"],
    ["/favicon.ico"] and ["favicon.ico"] are root resources, ["/a/b"] and
    ["a/b"] are not. *)
Theorem root_resource_iff path :
  is_root_resource path = true <-> PyStr.has_sep (PyStr.drop 1 path) = false.
Proof.
  rewrite is_root_resource_no_directory.
  by destruct (PyStr.has_sep (PyStr.drop 1 path)).
Qed.

(** X2. A path returned by [path_for_file] comes from the first directory
    that holds the searched name as a regular file, and is the relative
    path of the same index joined with that name. *)
Theorem path_for_file_return os self filename p :
  path_for_file os self filename = Return p ->
  exists i directory relative,
    directories self !! i = Some directory
    /\ relativePaths self !! i = Some relative
    /\ is_file os (Path.joinpath directory (effective_name filename))
       = Return true
    /\ (forall j d, (j < i)%nat -> directories self !! j = Some d ->
          is_file os (Path.joinpath d (effective_name filename)) = Return false)
    /\ p = Path.joinpath relative (effective_name filename).
Proof.
  rewrite path_for_file_unfold.
  destruct (first_with_file os (effective_name filename) (directories self) 0)
    as [[index|]|e] eqn:Hfirst; [|done|done].
  apply first_with_file_some in Hfirst
    as (i & directory & -> & Hdir & Hfile & Hbefore).
  simpl. destruct (relativePaths self !! i) as [relative|] eqn:Hrel; [|done].
  intros [= <-]. by exists i, directory, relative.
Qed.

Lemma path_for_file_return_witness :
  exists i directory relative,
    directories Scenario.server !! i = Some directory
    /\ relativePaths Scenario.server !! i = Some relative
    /\ is_file Scenario.lib_only
         (Path.joinpath directory (effective_name "/web/index.html"))
       = Return true
    /\ (forall j d, (j < i)%nat -> directories Scenario.server !! j = Some d ->
          is_file Scenario.lib_only
            (Path.joinpath d (effective_name "/web/index.html")) = Return false)
    /\ mkPath false ["lib"; "index.html"]
       = Path.joinpath relative (effective_name "/web/index.html").
Proof.
  apply (path_for_file_return Scenario.lib_only Scenario.server
           "/web/index.html").
  reflexivity.
Defined.

(** X3. The directory part of the requested name plays no role in the
    result: the returned path is a relative root followed by the base
    name as its only further component (by nothing when the base name is
    ["."]), and the base name holds no separator. *)
Theorem path_for_file_flat os self filename p :
  path_for_file os self filename = Return p ->
  PyStr.has_sep (effective_name filename) = false
  /\ exists relative,
       relative ∈ relativePaths self
       /\ absolute p = absolute relative
       /\ parts p
          = parts relative
            ++ (if decide (effective_name filename = ".") then []
                else [effective_name filename]).
Proof.
  rewrite path_for_file_unfold.
  destruct (first_with_file os (effective_name filename) (directories self) 0)
    as [[index|]|e]; [|done|done].
  destruct (relativePaths self !! index) as [relative|] eqn:Hrel; [|done].
  intros [= <-]. split; [apply effective_name_no_sep|].
  exists relative. split; [by eapply list_elem_of_lookup_2|].
  rewrite joinpath_no_sep by apply effective_name_no_sep. simpl.
  split; [done|]. f_equal.
  pose proof (effective_name_nonempty filename).
  repeat case_decide; naive_solver.
Qed.

Lemma path_for_file_flat_witness :
  PyStr.has_sep (effective_name "/web/js/deep/app.js") = false
  /\ exists relative,
       relative ∈ relativePaths Scenario.server
       /\ absolute (mkPath false ["web"; "app.js"]) = absolute relative
       /\ parts (mkPath false ["web"; "app.js"])
          = parts relative
            ++ (if decide (effective_name "/web/js/deep/app.js" = ".") then []
                else [effective_name "/web/js/deep/app.js"]).
Proof.
  apply (path_for_file_flat
           (Scenario.machine ["/app/web/app.js"] ["/app/web"; "/app/lib"])
           Scenario.server "/web/js/deep/app.js").
  reflexivity.
Defined.

Lemma path_for_file_raise_cases os self filename e :
  length (relativePaths self) = length (directories self) ->
  path_for_file os self filename = Raise e ->
  e = ValueError (not_found_message (effective_name filename))
  /\ (forall d, d ∈ directories self ->
        is_file os (Path.joinpath d (effective_name filename))
        = Return false)
  \/ exists i directory,
       directories self !! i = Some directory
       /\ is_file os (Path.joinpath directory (effective_name filename))
          = Raise e
       /\ (forall j d, (j < i)%nat -> directories self !! j = Some d ->
             is_file os (Path.joinpath d (effective_name filename))
             = Return false).
Proof.
  intros Hlen. rewrite path_for_file_unfold.
  destruct (first_with_file os (effective_name filename) (directories self) 0)
    as [[index|]|e0] eqn:Hfirst.
  - apply first_with_file_some in Hfirst as (i & directory & -> & Hdir & _).
    simpl. destruct (relativePaths self !! i) eqn:Hrel; [done|].
    apply lookup_ge_None in Hrel. apply lookup_lt_Some in Hdir. lia.
  - intros [= <-]. left. split; [done|]. by eapply first_with_file_none_inv.
  - intros [= <-]. right. by eapply first_with_file_raise.
Qed.

(** X4. With as many relative paths as directories, [path_for_file]
    raises in two cases only: every directory answered that the searched
    name is no regular file, and the exception is the [ValueError] of a
    name not found; or [is_file] itself raised, for a directory before
    which every directory answered [False], and the exception is the one
    [is_file] raised.  There is no [IndexError]. *)
Theorem path_for_file_raise os self filename e :
  length (relativePaths self) = length (directories self) ->
  path_for_file os self filename = Raise e ->
  e = ValueError (not_found_message (effective_name filename))
  /\ (forall d, d ∈ directories self ->
        is_file os (Path.joinpath d (effective_name filename))
        = Return false)
  \/ exists i directory,
       directories self !! i = Some directory
       /\ is_file os (Path.joinpath directory (effective_name filename))
          = Raise e
       /\ (forall j d, (j < i)%nat -> directories self !! j = Some d ->
             is_file os (Path.joinpath d (effective_name filename))
             = Return false).
Proof. apply path_for_file_raise_cases. Qed.

Lemma path_for_file_raise_witness :
  OSError
  = ValueError
      (not_found_message
         (effective_name ("/web/" +:+ Scenario.long_name)))
  /\ (forall d, d ∈ directories Scenario.server ->
        is_file Scenario.overlong
          (Path.joinpath d (effective_name ("/web/" +:+ Scenario.long_name)))
        = Return false)
  \/ exists i directory,
       directories Scenario.server !! i = Some directory
       /\ is_file Scenario.overlong
            (Path.joinpath directory
               (effective_name ("/web/" +:+ Scenario.long_name)))
          = Raise OSError
       /\ (forall j d, (j < i)%nat ->
             directories Scenario.server !! j = Some d ->
             is_file Scenario.overlong
               (Path.joinpath d
                  (effective_name ("/web/" +:+ Scenario.long_name)))
             = Return false).
Proof.
  apply (path_for_file_raise Scenario.overlong Scenario.server
           ("/web/" +:+ Scenario.long_name) OSError);
    [reflexivity|by vm_compute].
Defined.

(** X5. [do_GET] sends 403 in one case only: the request is not for a
    root resource and its path, without its leading separator, starts
    with the string form of no relative path. *)
Theorem do_GET_forbidden_iff os self path :
  SendError 403 None ∈ do_GET os self path
  <-> is_root_resource path = false
      /\ (forall r, r ∈ relativePaths self ->
            PyStr.startswith (effective_path path) (Path.str r) = false).
Proof.
  unfold do_GET, serve. split.
  - destruct (is_root_resource path).
    + destruct (path_for_file os self path) as [p|[]]; set_solver.
    + destruct (first_prefix (effective_path path) (relativePaths self) 0)
        as [k|] eqn:Hprefix.
      * destruct (path_for_file os self path) as [p|[]]; set_solver.
      * intros _. split; [done|]. by eapply first_prefix_none_inv.
  - intros [-> Hnone]. rewrite first_prefix_none by done. set_solver.
Qed.

(** X6. With as many relative paths as directories, every GET ends in
    exactly one of four ways: 403; 404 with the not-found text of the
    searched name; the hand-over to static serving of the resolved path;
    or, when [is_file] itself raised for some directory, the exception
    it raised leaving [do_GET] with no response sent (an [OSError] is
    not caught).  A root resource is logged first. *)
Theorem do_GET_outcomes os self path :
  length (relativePaths self) = length (directories self) ->
  let root_log :=
    if is_root_resource path then [LogRootResource path] else [] in
  do_GET os self path = [SendError 403 None]
  \/ do_GET os self path
     = root_log
       ++ [SendError 404 (Some (not_found_message (effective_name path)))]
  \/ (exists p directoryIndex,
        path_for_file os self path = Return p
        /\ do_GET os self path
           = root_log
             ++ [LogResponsePath path p directoryIndex;
                 StaticGET (Path.str p)])
  \/ exists e directory,
       directory ∈ directories self
       /\ is_file os (Path.joinpath directory (effective_name path))
          = Raise e
       /\ do_GET os self path = root_log
            ++ [match e with
                | ValueError error => SendError 404 (Some error)
                | _ => Uncaught e
                end].
Proof.
  intros Hlen root_log. subst root_log. unfold do_GET, serve.
  assert (forall e, path_for_file os self path = Raise e ->
            (e = ValueError (not_found_message (effective_name path)))
            \/ exists directory,
                 directory ∈ directories self
                 /\ is_file os (Path.joinpath directory (effective_name path))
                    = Raise e) as Hraise.
  { intros e He.
    apply path_for_file_raise_cases in He; [|done].
    destruct He as [[-> _]|(i & directory & Hdir & Hfile & _)]; [by left|].
    right. exists directory. split; [by eapply list_elem_of_lookup_2|done]. }
  destruct (is_root_resource path).
  - destruct (path_for_file os self path) as [p|e] eqn:Hpath.
    + right; right; left. by exists p, None.
    + destruct (Hraise e eq_refl) as [->|(directory & Hin & Hfile)].
      * by right; left.
      * right; right; right. exists e, directory.
        split; [done|]. split; [done|]. by destruct e.
  - destruct (first_prefix (effective_path path) (relativePaths self) 0)
      as [k|]; [|by left].
    destruct (path_for_file os self path) as [p|e] eqn:Hpath.
    + right; right; left. by exists p, (Some k).
    + destruct (Hraise e eq_refl) as [->|(directory & Hin & Hfile)].
      * by right; left.
      * right; right; right. exists e, directory.
        split; [done|]. split; [done|]. by destruct e.
Qed.

Lemma do_GET_outcomes_witness :
  let path := "/web/" +:+ Scenario.long_name in
  let root_log :=
    if is_root_resource path then [LogRootResource path] else [] in
  do_GET Scenario.overlong Scenario.server path = [SendError 403 None]
  \/ do_GET Scenario.overlong Scenario.server path
     = root_log
       ++ [SendError 404 (Some (not_found_message (effective_name path)))]
  \/ (exists p directoryIndex,
        path_for_file Scenario.overlong Scenario.server path = Return p
        /\ do_GET Scenario.overlong Scenario.server path
           = root_log
             ++ [LogResponsePath path p directoryIndex;
                 StaticGET (Path.str p)])
  \/ exists e directory,
       directory ∈ directories Scenario.server
       /\ is_file Scenario.overlong
            (Path.joinpath directory (effective_name path))
          = Raise e
       /\ do_GET Scenario.overlong Scenario.server path
          = root_log
            ++ [match e with
                | ValueError error => SendError 404 (Some error)
                | _ => Uncaught e
                end].
Proof.
  apply (do_GET_outcomes Scenario.overlong Scenario.server
           ("/web/" +:+ Scenario.long_name)).
  reflexivity.
Defined.

(** ** More on startup *)

Lemma common_prefix_l a b : Path.common_prefix a b `prefix_of` a.
Proof.
  revert b. induction a as [|x a IH]; intros [|y b]; simpl;
    try apply prefix_nil.
  case_decide; [|apply prefix_nil]. by apply prefix_cons.
Qed.

Lemma common_prefix_r a b : Path.common_prefix a b `prefix_of` b.
Proof.
  revert b. induction a as [|x a IH]; intros [|y b]; simpl;
    try apply prefix_nil.
  case_decide as Hxy; [|apply prefix_nil]. subst. by apply prefix_cons.
Qed.

Lemma fold_common_prefix_l l a :
  fold_left Path.common_prefix l a `prefix_of` a.
Proof.
  revert a. induction l as [|b l IH]; intros a; simpl; [done|].
  etrans; [apply IH|apply common_prefix_l].
Qed.

Lemma fold_common_prefix_each l a b :
  b ∈ l -> fold_left Path.common_prefix l a `prefix_of` b.
Proof.
  revert a. induction l as [|b0 l IH]; intros a Hb; simpl.
  - by apply elem_of_nil in Hb.
  - apply elem_of_cons in Hb as [->|Hb]; [|by apply IH].
    etrans; [apply fold_common_prefix_l|apply common_prefix_r].
Qed.

Lemma strip_prefix_app pre rest :
  Path.strip_prefix pre (pre ++ rest) = Some rest.
Proof.
  induction pre as [|x pre IH]; simpl; [done|]. by rewrite decide_True.
Qed.

Lemma strip_prefix_some pre l rest :
  Path.strip_prefix pre l = Some rest -> l = pre ++ rest.
Proof.
  revert l. induction pre as [|x pre IH]; intros l; simpl.
  - by intros [= ->].
  - destruct l as [|y l]; [done|]. case_decide; [|done]. subst.
    intros Hrest. f_equal. by apply IH.
Qed.

(** Every directory whose parts extend those of [fromDir], under the same
    anchor, gets its relative path, index by index. *)
Lemma relative_all_aligned fromDir dirs :
  Forall (fun d => anchor d = anchor fromDir
                   /\ parts fromDir `prefix_of` parts d) dirs ->
  exists rels,
    relative_all fromDir dirs = Return rels
    /\ Forall2 (fun d r => anchor r = NoAnchor
                           /\ parts d = parts fromDir ++ parts r) dirs rels.
Proof.
  induction 1 as [|d dirs [Hanchor [rest Hrest]] _ (rels & Hrels & Hall)];
    simpl.
  - by exists [].
  - unfold Path.relative_to. rewrite decide_True by done.
    rewrite Hrest, strip_prefix_app, Hrels.
    eexists. split; [reflexivity|]. by constructor.
Qed.

(** A directory that the working directory does not lead to stops the
    computation of the relative paths. *)
Lemma relative_all_stray fromDir dirs d :
  d ∈ dirs ->
  anchor d <> anchor fromDir \/ ~ parts fromDir `prefix_of` parts d ->
  exists msg, relative_all fromDir dirs = Raise (ValueError msg).
Proof.
  intros Hd Hstray.
  assert (exists msg, Path.relative_to d fromDir = Raise (ValueError msg))
    as [msg Hmsg].
  { unfold Path.relative_to. case_decide as Hanchor; [|by eexists].
    destruct Hstray as [?|Hparts]; [done|].
    destruct (Path.strip_prefix (parts fromDir) (parts d)) as [rest|] eqn:Hs;
      [|by eexists].
    destruct Hparts. exists rest. by apply strip_prefix_some. }
  induction dirs as [|d0 dirs IH]; [by apply elem_of_nil in Hd|].
  simpl. apply elem_of_cons in Hd as [<-|Hd].
  - rewrite Hmsg. by eexists.
  - destruct (Path.relative_to d0 fromDir) as [r|e] eqn:Hd0.
    + destruct (IH Hd) as [msg' ->]. by eexists.
    + unfold Path.relative_to in Hd0.
      repeat case_match; simplify_eq; by eexists.
Qed.


(** The common path of directories anchored at ["/"] is anchored there
    and leads to each of them. *)
Lemma commonpath_root dirs :
  dirs <> [] ->
  Forall (fun d => anchor d = Root) dirs ->
  exists common,
    Path.commonpath dirs = Return common
    /\ anchor common = Root
    /\ forall d, d ∈ dirs -> parts common `prefix_of` parts d.
Proof.
  intros Hne Hall. destruct dirs as [|d0 dirs]; [done|].
  apply Forall_cons in Hall as [Hd0 Hall]. rewrite Forall_forall in Hall.
  unfold Path.commonpath.
  assert (Hsame : forallb (fun q => Bool.eqb (absolute q) (absolute d0)) dirs
                  = true).
  { apply forallb_forall. intros q Hq%list_elem_of_In. cbv beta.
    unfold absolute. rewrite (Hall q Hq). by rewrite Hd0. }
  rewrite Hsame. eexists. split; [reflexivity|]. split.
  - unfold absolute. by rewrite Hd0.
  - intros d [->|Hd]%elem_of_cons; simpl.
    + apply fold_common_prefix_l.
    + apply fold_common_prefix_each.
      by apply list_elem_of_In, in_map, list_elem_of_In.
Qed.

Lemma serve_forever_ok os dirs :
  dirs <> [] ->
  Forall (fun d => anchor d = Root) dirs ->
  (forall common, Path.commonpath dirs = Return common ->
     chdir os common = Return common) ->
  exists fromDir rels,
    serve_forever os dirs = [Chdir fromDir; ServeLoop (mkServer dirs rels)]
    /\ Path.commonpath dirs = Return fromDir
    /\ Forall2 (fun d r => anchor r = NoAnchor
                           /\ parts d = parts fromDir ++ parts r) dirs rels.
Proof.
  intros Hne Hall Hcwd.
  destruct (commonpath_root dirs Hne Hall) as (common & Hcommon & Hroot & Hpre).
  unfold serve_forever. rewrite Hcommon, (Hcwd common Hcommon).
  destruct (relative_all_aligned common dirs) as (rels & -> & Hrels).
  { apply Forall_forall. intros d Hd. split; [|by apply Hpre].
    rewrite Forall_forall in Hall. by rewrite (Hall d Hd). }
  by exists common, rels.
Qed.

(** X7. For a non-empty list of directories anchored at ["/"], when the
    working directory read back after [chdir] is the common path itself,
    [serve_forever] raises nothing: it changes to the common path and
    enters the loop with one relative path per directory, in the same
    order, each leading from the common path to its directory. *)
Theorem serve_forever_aligned os dirs :
  dirs <> [] ->
  Forall (fun d => anchor d = Root) dirs ->
  (forall common, Path.commonpath dirs = Return common ->
     chdir os common = Return common) ->
  exists fromDir rels,
    serve_forever os dirs = [Chdir fromDir; ServeLoop (mkServer dirs rels)]
    /\ Path.commonpath dirs = Return fromDir
    /\ length rels = length dirs
    /\ (forall i d, dirs !! i = Some d ->
          exists r, rels !! i = Some r
                    /\ anchor r = NoAnchor
                    /\ parts d = parts fromDir ++ parts r).
Proof.
  intros Hne Hall Hcwd.
  destruct (serve_forever_ok os dirs Hne Hall Hcwd)
    as (fromDir & rels & Hrun & Hcommon & Hrels).
  exists fromDir, rels. split; [done|]. split; [done|]. split.
  - symmetry. by eapply Forall2_length.
  - intros i d Hd.
    destruct (Forall2_lookup_l _ _ _ _ _ Hrels Hd) as (r & Hr & Hrabs & Hparts).
    by exists r.
Qed.

Lemma serve_forever_aligned_witness :
  exists fromDir rels,
    serve_forever Scenario.both Scenario.roots
    = [Chdir fromDir; ServeLoop (mkServer Scenario.roots rels)]
    /\ Path.commonpath Scenario.roots = Return fromDir
    /\ length rels = length Scenario.roots
    /\ (forall i d, Scenario.roots !! i = Some d ->
          exists r, rels !! i = Some r
                    /\ anchor r = NoAnchor
                    /\ parts d = parts fromDir ++ parts r).
Proof.
  apply (serve_forever_aligned Scenario.both Scenario.roots).
  - discriminate.
  - repeat constructor.
  - intros common Hcommon. reflexivity.
Defined.



(** X24. When the working directory read back after [chdir] does not
    lead to one of the directories (another anchor, as for relative
    directories, or other leading parts, as behind a symbolic link),
    [serve_forever] raises [ValueError] after the change of directory and
    never enters the loop. *)
Theorem serve_forever_stray os dirs common fromDir d :
  Path.commonpath dirs = Return common ->
  chdir os common = Return fromDir ->
  d ∈ dirs ->
  anchor d <> anchor fromDir \/ ~ parts fromDir `prefix_of` parts d ->
  exists msg,
    serve_forever os dirs = [Chdir common; BootRaise (ValueError msg)].
Proof.
  intros Hcommon Hcwd Hd Hstray. unfold serve_forever.
  rewrite Hcommon, Hcwd.
  destruct (relative_all_stray fromDir dirs d Hd Hstray) as [msg ->].
  by exists msg.
Qed.

Lemma serve_forever_stray_witness :
  exists msg,
    serve_forever Scenario.elsewhere [mkPath false ["a"; "b"];
                                      mkPath false ["a"; "c"]]
    = [Chdir (mkPath false ["a"]); BootRaise (ValueError msg)].
Proof.
  apply (serve_forever_stray Scenario.elsewhere
           [mkPath false ["a"; "b"]; mkPath false ["a"; "c"]]
           (mkPath false ["a"]) (Path.of_string "/home/user/a")
           (mkPath false ["a"; "b"])).
  - reflexivity.
  - reflexivity.
  - apply list_elem_of_here.
  - left. discriminate.
Defined.

(** ** More on the dispatcher and [do_POST] *)

Section DispatchMore.

Context {World : Type}.
Context (server_version sys_version : World -> string).
Context (class_name : string).
Context (decode_utf8 : string -> option string).
Context (json_loads : string -> option json).
Context (json_dumps : gmap string json -> string).

Ltac unfold_post :=
  unfold parses_to, dispatch_start, serve_POST, do_POST, _send_object,
    try_except_reraise,
    mbind, M_bind, mret, M_ret, raise, get_world, emit in *.

Ltac unfold_command :=
  unfold handle_command, choose_response, add_confirm, unhandled,
    mbind, M_bind, mret, M_ret, raise, get_world, emit in *.

Abbreviation handle_command :=
  (handle_command World server_version sys_version class_name).
Abbreviation serve_POST :=
  (serve_POST World server_version sys_version class_name
     decode_utf8 json_loads json_dumps).
Abbreviation parses_to := (parses_to decode_utf8 json_loads).
Abbreviation dispatch_start := (dispatch_start World).


(** A prefix of the chain that declines hands the command and the world
    over to the rest of the chain. *)
Lemma handle_loop_app before rest index commandObject st c1 w1 :
  all_decline World before commandObject (world World st) = Some (c1, w1) ->
  handle_loop World (before ++ rest) index commandObject st
  = handle_loop World rest (index + length before) c1
      (mkState World
         (events World st ++ (HandlerCall <$> seq index (length before)))
         w1).
Proof.
  revert index commandObject st.
  induction before as [|handle before IH]; intros index c st Hall.
  - simpl in *. injection Hall as <- <-.
    rewrite app_nil_r, Nat.add_0_r. by destruct st.
  - simpl in Hall. cbn [handle_loop app]. unfold_command. unfold call.
    destruct (handle c (world World st)) as [[[[r|]|e] c0] w0]; try done.
    simpl.
    rewrite (IH (S index) c0
               (mkState World (events World st ++ [HandlerCall index]) w0)
               Hall).
    simpl. rewrite <- app_assoc. simpl.
    by replace (index + S (length before))%nat
         with (S (index + length before)) by lia.
Qed.



(** X10. A [Content-Length] that [int] rejects makes [do_POST] raise
    [ValueError] before anything else: no response of any status is sent
    and nothing is read. *)
Theorem do_POST_bad_length handlers request header w :
  content_length request = Some header ->
  PyInt.int header = None ->
  exists msg,
    serve_POST handlers request w = ([Uncaught (ValueError msg)], w).
Proof.
  intros Hheader Hint. unfold_post. rewrite Hheader, Hint. simpl.
  by eexists.
Qed.





(** X15. The first handler that answers wins: the handlers before it were
    called in order, those after it are never called, and its response is
    returned with a ["confirm"] entry added when it holds neither
    ["failed"] nor ["confirm"]. *)
Theorem handle_command_first_answer before handle after commandObject st
    c1 w1 response c2 w2 :
  all_decline World before commandObject (world World st) = Some (c1, w1) ->
  handle c1 w1 = (Return (Some response), c2, w2) ->
  handle_command (before ++ handle :: after) commandObject st
  = (Return
       (Some (if decide (("failed" ∉ dom response)
                         /\ ("confirm" ∉ dom response))
              then <["confirm" :=
                       JStr (confirm_text World server_version sys_version
                               class_name w2)]> response
              else response)),
     mkState World
       (events World st ++ (HandlerCall <$> seq 0 (S (length before))))
       w2).
Proof.
  intros Hbefore Hanswer. rewrite seq_S, fmap_app.
  rewrite handle_command_unfold. unfold_command.
  rewrite (handle_loop_app before (handle :: after) 0 commandObject st c1 w1)
    by done.
  cbn [handle_loop]. unfold_command. unfold call. simpl.
  rewrite Hanswer. simpl. by rewrite <- !app_assoc.
Qed.

(** X16. A command that is not a mapping and that every handler declines
    cannot be answered ["Unhandled."]: the dispatcher raises [TypeError]
    after the whole chain was called. *)
Theorem handle_command_not_a_mapping handlers commandObject st c' w' :
  all_decline World handlers commandObject (world World st) = Some (c', w') ->
  (forall entries, c' <> JObj entries) ->
  handle_command handlers commandObject st
  = (Raise TypeError,
     mkState World
       (events World st ++ (HandlerCall <$> seq 0 (length handlers)))
       w').
Proof.
  intros Hall Hnot. rewrite handle_command_unfold. unfold_command.
  rewrite (handle_loop_all_decline _ _ _ _ _ _ Hall). simpl.
  destruct c'; try done. by destruct (Hnot entries).
Qed.

End DispatchMore.


Lemma do_POST_bad_length_witness :
  exists msg,
    serve_POST nat Scenario.version Scenario.runtime "Main"
      Scenario.decode Scenario.loads Scenario.dumps
      [Scenario.answer_x] (mkRequest "/" (Some "two") "{}") 0%nat
    = ([Uncaught (ValueError msg)], 0%nat).
Proof.
  apply (do_POST_bad_length Scenario.version Scenario.runtime "Main"
           Scenario.decode Scenario.loads Scenario.dumps
           [Scenario.answer_x] (mkRequest "/" (Some "two") "{}") "two");
    reflexivity.
Defined.





Lemma handle_command_first_answer_witness :
  handle_command nat Scenario.version Scenario.runtime "Main"
    ([Scenario.decline] ++ Scenario.answer_x :: [Scenario.crash])
    (JObj Scenario.ping) (mkState nat [] 0%nat)
  = (Return
       (Some (<["confirm" := JStr "Main SimpleHTTP/0.6 Python/3"]>
                {["x" := JInt 1]})),
     mkState nat [HandlerCall 0; HandlerCall 1] 2%nat).
Proof.
  exact (handle_command_first_answer Scenario.version Scenario.runtime "Main"
           [Scenario.decline] Scenario.answer_x [Scenario.crash]
           (JObj Scenario.ping) (mkState nat [] 0%nat)
           (JObj Scenario.ping) 1%nat {["x" := JInt 1]}
           (JObj Scenario.ping) 2%nat eq_refl eq_refl).
Defined.

Lemma handle_command_not_a_mapping_witness :
  handle_command nat Scenario.version Scenario.runtime "Main"
    [Scenario.decline] (JArr [JInt 1]) (mkState nat [] 0%nat)
  = (Raise TypeError, mkState nat [HandlerCall 0] 1%nat).
Proof.
  apply (handle_command_not_a_mapping Scenario.version Scenario.runtime
           "Main" [Scenario.decline] (JArr [JInt 1]) (mkState nat [] 0%nat)
           (JArr [JInt 1]) 1%nat); [reflexivity|discriminate].
Defined.

(** ** The banner: [directory_lines] *)

Module StartMessageFacts.
Import StartMessage.

Lemma length_append (s t : string) :
  String.length (s +:+ t) = (String.length s + String.length t)%nat.
Proof.
  induction s as [|a s IH]; [done|].
  change (S (String.length (s +:+ t))
          = S (String.length s + String.length t)).
  by rewrite IH.
Qed.

Lemma length_spaces n : String.length (spaces n) = n.
Proof. induction n as [|n IH]; simpl; [done|]. by rewrite IH. Qed.

Lemma length_ljust s indent :
  String.length (ljust s indent) = (String.length s `max` indent)%nat.
Proof. unfold ljust. rewrite length_append, length_spaces. lia. Qed.

(** The line prefix is never taken for a newline or for a leg. *)
Lemma ljust_prefix_plain (f : bool) indent :
  ljust (if f then ">" else "") indent <> newline
  /\ PyStr.startswith (ljust (if f then ">" else "") indent) "/" = false.
Proof.
  unfold ljust. destruct f; [done|].
  by destruct (indent - String.length "")%nat.
Qed.

(** What [while True] does for one leg, whatever the bound from two
    passes on: the leg goes on the line at hand when it fits there, and
    otherwise on a fresh line, after a newline and the line prefix. *)
Lemma while_true_cases fuel width indent append st :
  (2 <= fuel)%nat ->
  (lineLen st <> 0%nat
   /\ (lineLen st + String.length append <= width)%nat
   /\ while_true fuel width indent append st
      = Some ([append],
              mkLine (first st) (lineLen st + String.length append)))
  \/ (exists f,
        (f = first st /\ lineLen st = 0%nat
         \/ f = false /\ lineLen st <> 0%nat
            /\ (width < lineLen st + String.length append)%nat)
        /\ while_true fuel width indent append st
           = Some ([newline; ljust (if f then ">" else "") indent; append],
                   if decide (width
                              < String.length
                                  (ljust (if f then ">" else "") indent)
                                + String.length append)%nat
                   then mkLine false 0
                   else mkLine f
                          (String.length
                             (ljust (if f then ">" else "") indent)
                           + String.length append))).
Proof.
  intros Hfuel. destruct fuel as [|[|fuel]]; [lia|lia|].
  destruct st as [f n]. cbn [while_true]. unfold pass. cbn [lineLen first].
  destruct (decide (n = 0%nat)) as [->|Hn].
  - right. exists f. split; [by left|]. cbn [Nat.add].
    by case_decide.
  - destruct (decide (width < n + String.length append)%nat) as [Hover|Hfit].
    + right. exists false. split; [right; done|].
      cbn [app lineLen first]. rewrite decide_True by done. cbn [Nat.add].
      by case_decide.
    + left. split; [done|]. split; [lia|done].
Qed.

Lemma while_true_total width indent append st :
  exists r, forall fuel, (2 <= fuel)%nat ->
    while_true fuel width indent append st = Some r.
Proof.
  destruct (while_true_cases 2 width indent append st (le_n 2)) as
    [(Hnz2 & Hfit2 & H2)|(f & Hf & H2)].
  - eexists. intros fuel Hfuel.
    destruct (while_true_cases fuel width indent append st Hfuel)
      as [(_ & Hfit & H)|(f & [[-> Hz]|(-> & Hnz & Hover)] & H)];
      [exact H|lia|lia].
  - eexists. intros fuel Hfuel.
    destruct (while_true_cases fuel width indent append st Hfuel)
      as [(Hnz & Hfit & H)|(f' & Hf' & H)].
    + destruct Hf as [[_ Hz]|(_ & _ & Hover)]; lia.
    + rewrite H. f_equal.
      assert (f' = f) as ->; [|reflexivity].
      destruct Hf as [[-> Hz]|(-> & Hnz & Hover)];
        destruct Hf' as [[-> Hz']|(-> & Hnz' & Hover')]; try done; lia.
Qed.

Lemma legs_loop_total width indent appends st :
  exists out, forall fuel, (2 <= fuel)%nat ->
    legs_loop fuel width indent appends st = Some out.
Proof.
  revert st. induction appends as [|append rest IH]; intros st.
  - by exists [].
  - destruct (while_true_total width indent append st) as [[yielded st'] Hw].
    destruct (IH st') as [more Hmore].
    exists (yielded ++ more). intros fuel Hfuel. simpl.
    by rewrite (Hw fuel Hfuel), (Hmore fuel Hfuel).
Qed.

(** X17. The [while True] loop of [directory_lines] ends after at most
    two passes for every leg: with room for two passes the generator
    runs to its end, and what it yields does not depend on the room
    given. *)
Theorem directory_lines_total width indent dirs :
  exists out, forall fuel, (2 <= fuel)%nat ->
    directory_lines fuel width indent dirs = Some out.
Proof.
  induction dirs as [|directory rest [more Hmore]].
  - by exists [].
  - destruct (legs_loop_total width indent
                (appends_from 0 (py_parts directory)) (mkLine true 0))
      as [yielded Hyielded].
    exists (yielded ++ more). intros fuel Hfuel. simpl.
    by rewrite (Hyielded fuel Hfuel), (Hmore fuel Hfuel).
Qed.

Lemma appends_from_S index legs :
  appends_from (S index) legs = map (fun leg => "/" +:+ leg) legs.
Proof.
  revert index. induction legs as [|leg rest IH]; intros index; [done|].
  cbn [appends_from map].
  rewrite (decide_False (P := leg = "/" /\ S index = 0%nat))
    by (intros [_ ?]; lia).
  rewrite (decide_False (P := S index = 0%nat)) by lia.
  simpl. by rewrite IH.
Qed.

Lemma startswith_leg leg : PyStr.startswith ("/" +:+ leg) "/" = true.
Proof.
  unfold PyStr.startswith. apply prefix_correct.
  change (String "/" (substring 0 0 leg) = "/"). by destruct leg.
Qed.

(** Under the anchor ["/"] the legs are the parts, each with a separator
    in front: the anchor itself is skipped. *)
Lemma appends_root directory :
  anchor directory = Root ->
  appends_from 0 (py_parts directory)
  = map (fun leg => "/" +:+ leg) (parts directory).
Proof.
  intros Hanchor. unfold py_parts. rewrite Hanchor. cbn [appends_from].
  rewrite (decide_True (P := "/" = "/" /\ 0%nat = 0%nat)) by done.
  simpl. apply appends_from_S.
Qed.

(** The anchor ["//"] is no separator: it is not skipped and comes out
    as a leg of its own. *)
Lemma appends_root2 directory :
  anchor directory = Root2 ->
  appends_from 0 (py_parts directory)
  = "//" :: map (fun leg => "/" +:+ leg) (parts directory).
Proof.
  intros Hanchor. unfold py_parts. rewrite Hanchor. cbn [appends_from].
  rewrite (decide_False (P := "//" = "/" /\ 0%nat = 0%nat))
    by (by intros [? _]).
  rewrite (decide_True (P := 0%nat = 0%nat)) by done.
  simpl. f_equal. apply appends_from_S.
Qed.

(** Every leg of an absolute directory starts with a separator. *)
Lemma appends_absolute_legs directory :
  absolute directory = true ->
  Forall (fun append => PyStr.startswith append "/" = true)
    (appends_from 0 (py_parts directory)).
Proof.
  unfold absolute. destruct (anchor directory) eqn:Hanchor; [done| |];
    intros _.
  - rewrite appends_root by done. apply Forall_forall.
    intros a Ha%list_elem_of_In.
    apply in_map_iff in Ha as (leg & <- & _). apply startswith_leg.
  - rewrite appends_root2 by done. constructor; [reflexivity|].
    apply Forall_forall. intros a Ha%list_elem_of_In.
    apply in_map_iff in Ha as (leg & <- & _). apply startswith_leg.
Qed.

Lemma legs_of_app out more :
  legs_of (out ++ more) = legs_of out ++ legs_of more.
Proof. apply filter_app. Qed.

Lemma legs_of_fresh (f : bool) indent append more :
  PyStr.startswith append "/" = true ->
  legs_of ([newline; ljust (if f then ">" else "") indent; append] ++ more)
  = append :: legs_of more.
Proof.
  intros Happend. unfold legs_of. simpl.
  rewrite filter_cons, decide_False by done.
  rewrite filter_cons, decide_False
    by (rewrite (proj2 (ljust_prefix_plain f indent)); done).
  by rewrite filter_cons, decide_True.
Qed.

Lemma legs_loop_legs fuel width indent appends st out :
  (2 <= fuel)%nat ->
  Forall (fun append => PyStr.startswith append "/" = true) appends ->
  legs_loop fuel width indent appends st = Some out ->
  legs_of out = appends.
Proof.
  intros Hfuel Hall. revert st out.
  induction Hall as [|append rest Happend _ IH]; intros st out; simpl.
  - by intros [= <-].
  - destruct (while_true_cases fuel width indent append st Hfuel)
      as [(_ & _ & ->)|(f & _ & ->)];
      destruct (legs_loop fuel width indent rest _) as [more|] eqn:Hrest;
      try done; intros [= <-]; apply IH in Hrest.
    + unfold legs_of in *. simpl.
      by rewrite filter_cons, decide_True, Hrest.
    + change (legs_of ([newline; ljust (if f then ">" else "") indent;
                        append] ++ more) = append :: rest).
      by rewrite legs_of_fresh, Hrest.
Qed.

Lemma concat_legs_str legs :
  legs <> [] ->
  concat (map (fun leg => "/" +:+ leg) legs) = "/" +:+ PyStr.join legs.
Proof.
  induction legs as [|x [|y rest] IH]; [done| |]; intros _.
  - simpl. by rewrite append_empty_r.
  - change (String "/" (x +:+ concat (map (fun leg => "/" +:+ leg)
                                        (y :: rest)))
            = String "/" (x +:+ ("/" +:+ PyStr.join (y :: rest)))).
    by rewrite IH.
Qed.

(** X18. For absolute directories, the legs that [directory_lines] yields
    are, in order and once each, what the loop over the parts of every
    directory appends.  Under the anchor ["/"] these are the parts, each
    with a separator in front, and those of one directory spell its path.
    Under the anchor ["//"] the anchor comes out as a leg of its own
    before them, so that the legs spell the path with one separator too
    many.  (A directory that is the root ["/"] yields nothing.) *)
Theorem directory_lines_legs fuel width indent dirs out :
  (2 <= fuel)%nat ->
  Forall (fun d => absolute d = true) dirs ->
  directory_lines fuel width indent dirs = Some out ->
  legs_of out = flat_map (fun d => appends_from 0 (py_parts d)) dirs
  /\ (forall d, anchor d = Root ->
        appends_from 0 (py_parts d)
        = map (fun leg => "/" +:+ leg) (parts d)
        /\ (parts d <> [] ->
            concat (appends_from 0 (py_parts d)) = Path.str d))
  /\ (forall d, anchor d = Root2 ->
        appends_from 0 (py_parts d)
        = "//" :: map (fun leg => "/" +:+ leg) (parts d)
        /\ (parts d <> [] ->
            concat (appends_from 0 (py_parts d)) = "/" +:+ Path.str d)).
Proof.
  intros Hfuel Hall Hrun. split; [|split].
  - revert out Hrun.
    induction Hall as [|directory rest Habs _ IH]; intros out; simpl.
    + by intros [= <-].
    + destruct (legs_loop fuel width indent _ _) as [yielded|] eqn:Hlegs;
        [|done].
      destruct (directory_lines fuel width indent rest) as [more|]; [|done].
      intros [= <-]. rewrite legs_of_app, (IH more eq_refl). f_equal.
      eapply legs_loop_legs; [done| |exact Hlegs].
      by apply appends_absolute_legs.
  - intros d Hanchor. rewrite appends_root by done. split; [done|].
    intros Hparts. unfold Path.str. rewrite Hanchor.
    by apply concat_legs_str.
  - intros d Hanchor. rewrite appends_root2 by done. split; [done|].
    intros Hparts. unfold Path.str. rewrite Hanchor.
    change (String "/" (String "/" (concat (map (fun leg => "/" +:+ leg)
                                              (parts d))))
            = String "/" (String "/" (String "/" (PyStr.join (parts d))))).
    by rewrite concat_legs_str.
Qed.

Lemma line_widths_fresh cur (f : bool) indent append more :
  append <> newline ->
  line_widths cur
    ([newline; ljust (if f then ">" else "") indent; append] ++ more)
  = cur :: line_widths
             (String.length (ljust (if f then ">" else "") indent)
              + String.length append) more.
Proof.
  intros Happend. cbn [app line_widths].
  rewrite (decide_True (P := newline = newline)) by done.
  rewrite (decide_False (P := ljust _ _ = newline))
    by apply ljust_prefix_plain.
  by rewrite (decide_False (P := append = newline)).
Qed.

Lemma legs_loop_widths fuel width indent appends st out cur :
  (2 <= fuel)%nat ->
  Forall (fun append =>
            append <> newline
            /\ (1 `max` indent + String.length append <= width)%nat)
    appends ->
  legs_loop fuel width indent appends st = Some out ->
  (cur <= width)%nat ->
  lineLen st = 0%nat \/ lineLen st = cur ->
  exists closed cur',
    Forall (fun n => (n <= width)%nat) closed
    /\ (cur' <= width)%nat
    /\ forall more,
         line_widths cur (out ++ more) = closed ++ line_widths cur' more.
Proof.
  intros Hfuel Hall. revert st out cur.
  induction Hall as [|append rest [Hnl Hfits] _ IH]; intros st out cur; simpl.
  - intros [= <-] Hcur _. by exists [], cur.
  - destruct (while_true_cases fuel width indent append st Hfuel)
      as [(Hnz & Hfit & ->)|(f & Hf & ->)];
      destruct (legs_loop fuel width indent rest _) as [tail|] eqn:Hrest;
      try done; intros [= <-] Hcur Hinv.
    + destruct Hinv as [?|Hinv]; [lia|].
      destruct (IH _ _ (cur + String.length append)%nat Hrest)
        as (closed & cur' & Hclosed & Hcur' & Hsplit); [lia|right; simpl; lia|].
      exists closed, cur'. split; [done|]. split; [done|].
      intros more. simpl. rewrite decide_False by done. apply Hsplit.
    + pose proof (length_ljust (if f then ">" else "") indent) as Hline.
      assert (String.length (ljust (if f then ">" else "") indent)
              + String.length append <= width)%nat as Hnew.
      { rewrite Hline. destruct f; simpl String.length; lia. }
      destruct (IH _ _ _ Hrest Hnew)
        as (closed & cur' & Hclosed & Hcur' & Hsplit).
      { case_decide; simpl; auto. }
      exists (cur :: closed), cur'. split; [by constructor|]. split; [done|].
      intros more.
      change (line_widths cur
                ([newline; ljust (if f then ">" else "") indent; append]
                 ++ (tail ++ more))
              = cur :: (closed ++ line_widths cur' more)).
      rewrite line_widths_fresh by done. f_equal. apply Hsplit.
Qed.

(** X19. When every part of every directory fits on a line of its own,
    after the line prefix and with its separator (and so does the anchor
    ["//"] of a directory that has it), no line that [directory_lines]
    yields is longer than [width]. *)
Theorem directory_lines_width fuel width indent dirs out :
  (2 <= fuel)%nat ->
  Forall (fun d =>
            absolute d = true
            /\ (forall leg, leg ∈ parts d ->
                  (1 `max` indent + S (String.length leg) <= width)%nat)
            /\ (anchor d = Root2 -> (1 `max` indent + 2 <= width)%nat))
    dirs ->
  directory_lines fuel width indent dirs = Some out ->
  Forall (fun n => (n <= width)%nat) (line_widths 0 out).
Proof.
  intros Hfuel Hall Hrun.
  assert (forall cur, (cur <= width)%nat ->
            exists closed cur',
              Forall (fun n => (n <= width)%nat) closed
              /\ (cur' <= width)%nat
              /\ forall more,
                   line_widths cur (out ++ more)
                   = closed ++ line_widths cur' more) as Hgen.
  { revert out Hrun.
    induction Hall as [|directory rest (Habs & Hlegs & Hroot2) _ IH];
      intros out; simpl.
    - intros [= <-] cur Hcur. by exists [], cur.
    - assert (Forall (fun append =>
                        append <> newline
                        /\ (1 `max` indent + String.length append
                            <= width)%nat)
                (map (fun leg => "/" +:+ leg) (parts directory)))
        as Hparts.
      { apply Forall_forall. intros a Ha%list_elem_of_In.
        apply in_map_iff in Ha as (leg & <- & Hleg%list_elem_of_In).
        split; [done|].
        change (String.length ("/" +:+ leg)) with (S (String.length leg)).
        by apply Hlegs. }
      assert (Forall (fun append =>
                        append <> newline
                        /\ (1 `max` indent + String.length append
                            <= width)%nat)
                (appends_from 0 (py_parts directory)))
        as Happends.
      { unfold absolute in Habs.
        destruct (anchor directory) eqn:Hanchor; [done| |].
        - by rewrite appends_root.
        - rewrite appends_root2 by done. constructor; [|done].
          split; [done|]. by apply Hroot2. }
      destruct (legs_loop fuel width indent _ _) as [yielded|] eqn:Hyielded;
        [|done].
      destruct (directory_lines fuel width indent rest) as [tail|]; [|done].
      intros [= <-] cur Hcur.
      destruct (legs_loop_widths fuel width indent _ _ yielded cur Hfuel
                  Happends Hyielded Hcur (or_introl eq_refl))
        as (closed1 & cur1 & Hclosed1 & Hcur1 & Hsplit1).
      destruct (IH tail eq_refl cur1 Hcur1)
        as (closed2 & cur2 & Hclosed2 & Hcur2 & Hsplit2).
      exists (closed1 ++ closed2), cur2.
      split; [by apply Forall_app|]. split; [done|].
      intros more. by rewrite <- !app_assoc, Hsplit1, Hsplit2. }
  destruct (Hgen 0%nat ltac:(lia)) as (closed & cur' & Hclosed & Hcur' & Hsplit).
  specialize (Hsplit []). rewrite app_nil_r in Hsplit. rewrite Hsplit.
  apply Forall_app. split; [done|]. by repeat constructor.
Qed.

End StartMessageFacts.

Lemma directory_lines_total_witness :
  exists out, forall fuel, (2 <= fuel)%nat ->
    StartMessage.directory_lines fuel 12 2 [Scenario.long_directory]
    = Some out.
Proof.
  exact (StartMessageFacts.directory_lines_total 12 2
           [Scenario.long_directory]).
Defined.

Lemma directory_lines_legs_witness :
  let dirs := [Path.of_string "/app/web"; Path.of_string "//srv/lib"] in
  StartMessage.legs_of
    [StartMessage.newline; "> "; "/app"; "/web";
     StartMessage.newline; "> "; "//"; "/srv"; "/lib"]
  = flat_map
      (fun d => StartMessage.appends_from 0 (StartMessage.py_parts d)) dirs
  /\ (forall d, anchor d = Root ->
        StartMessage.appends_from 0 (StartMessage.py_parts d)
        = map (fun leg => "/" +:+ leg) (parts d)
        /\ (parts d <> [] ->
            StartMessage.concat
              (StartMessage.appends_from 0 (StartMessage.py_parts d))
            = Path.str d))
  /\ (forall d, anchor d = Root2 ->
        StartMessage.appends_from 0 (StartMessage.py_parts d)
        = "//" :: map (fun leg => "/" +:+ leg) (parts d)
        /\ (parts d <> [] ->
            StartMessage.concat
              (StartMessage.appends_from 0 (StartMessage.py_parts d))
            = "/" +:+ Path.str d)).
Proof.
  apply (StartMessageFacts.directory_lines_legs 2 80 2
           [Path.of_string "/app/web"; Path.of_string "//srv/lib"]).
  - lia.
  - repeat constructor.
  - reflexivity.
Defined.

Lemma directory_lines_width_witness :
  Forall (fun n => (n <= 12)%nat) [0; 10; 11; 5]%nat.
Proof.
  refine (StartMessageFacts.directory_lines_width 2 12 2
            [Scenario.long_directory]
            [StartMessage.newline; "> "; "/app"; "/web";
             StartMessage.newline; "  "; "/abcdefgh";
             StartMessage.newline; "  "; "/xy"] _ _ eq_refl).
  - lia.
  - constructor; [|constructor]. split; [reflexivity|]. split.
    + intros leg Hleg. revert leg Hleg. apply Forall_forall.
      repeat constructor; vm_compute; lia.
    + discriminate.
Defined.

(** ** More on the notice checker *)

Section NoticeMore.
Import NoticeChecker.

Context (stat_date : PurePath -> outcome date).
Context (git_is_different : PurePath -> outcome bool).
Context (git_modified_date : PurePath -> outcome date).
Context (discover : PurePath -> outcome DiscoveredNotice).

Abbreviation from_notice :=
  (from_notice stat_date git_is_different git_modified_date).
Abbreviation from_path :=
  (from_path stat_date git_is_different git_modified_date discover).

Lemma from_notice_shape n file :
  from_notice n = Return file ->
  path file = notice_path n
  /\ is_Some (modifiedDate file)
  /\ exception file = None
  /\ (notice file = None /\ state file = MISSING /\ notice_style n = None
      \/ notice file = Some n /\ is_Some (notice_style n)
         /\ (state file = CORRECT \/ state file = INCORRECT_DATE)).
Proof.
  unfold NoticeChecker.from_notice.
  destruct (stat_date (notice_path n)) as [statDate|]; [|done].
  destruct (git_is_different (notice_path n)) as [different|]; [|done].
  intros [= <-]. simpl. split; [done|]. split; [by eexists|]. split; [done|].
  destruct (notice_style n) as [style|]; [right|left; done].
  split; [done|]. split; [by eexists|].
  destruct (year_differs _ _); auto.
Qed.

(** X20. A file built from a discovered notice carries the notice exactly
    when a style was found, and is [MISSING] exactly when it carries none;
    it is never [EXEMPT] nor [ERROR], has a modification date and records
    no exception. *)
Theorem from_notice_invariants n file :
  from_notice n = Return file ->
  path file = notice_path n
  /\ is_Some (modifiedDate file)
  /\ exception file = None
  /\ state file <> EXEMPT
  /\ state file <> ERROR
  /\ (state file = MISSING <-> notice file = None)
  /\ (notice file = None <-> notice_style n = None)
  /\ (forall recorded, notice file = Some recorded -> recorded = n).
Proof.
  intros (Hpath & Hdate & Hexc & Hcases)%from_notice_shape.
  split; [done|]. split; [done|]. split; [done|].
  destruct Hcases as [(Hn & Hs & Hstyle)|(Hn & [style Hstyle] & Hs)].
  - rewrite Hn, Hs, Hstyle. by repeat split.
  - rewrite Hn, Hstyle.
    destruct Hs as [-> | ->]; repeat split; try done; by intros ? [= <-].
Qed.

(** X21. [from_notice] raises only what reading the file status or
    asking whether the file differs from the repository raised: a failure
    to read the history is absorbed, by falling back on the file system
    date. *)
Theorem from_notice_raise n e :
  from_notice n = Raise e ->
  stat_date (notice_path n) = Raise e
  \/ (exists statDate, stat_date (notice_path n) = Return statDate)
     /\ git_is_different (notice_path n) = Raise e.
Proof.
  unfold NoticeChecker.from_notice.
  destruct (stat_date (notice_path n)) as [statDate|e0]; [|by left; congruence].
  destruct (git_is_different (notice_path n)) as [different|e0]; [done|].
  intros [= <-]. right. split; [by eexists|done].
Qed.

(** X22. [from_path] never lets a [UnicodeDecodeError] out: it becomes a
    file in state [ERROR] that records the exception and has neither date
    nor notice.  A file returned in state [ERROR] always records that
    exception, and every other exception is passed on as it is. *)
Theorem from_path_decode_error p :
  from_path p <> Raise UnicodeDecodeError
  /\ (discover p = Raise UnicodeDecodeError ->
      from_path p
      = Return (mkNoticedFile p None None ERROR (Some UnicodeDecodeError)))
  /\ (forall file, from_path p = Return file ->
        (state file = ERROR <-> exception file = Some UnicodeDecodeError))
  /\ (forall e, from_path p = Raise e ->
        discover p = Raise e
        \/ exists n, discover p = Return n /\ from_notice n = Raise e).
Proof.
  unfold NoticeChecker.from_path.
  destruct (discover p) as [n|e] eqn:Hdiscover.
  - destruct (from_notice n) as [file|e] eqn:Hnotice.
    + split; [done|]. split; [done|]. split; [|done].
      intros file' [= <-].
      apply from_notice_shape in Hnotice as (_ & _ & Hexc & Hcases).
      rewrite Hexc. split; [|done].
      destruct Hcases as [(_ & Hs & _)|(_ & _ & [Hs|Hs])]; congruence.
    + destruct e; (split; [done|]); (split; [done|]);
        (split; [try done; by intros file [= <-]|]);
        intros e' He'; try done; right; exists n; split; congruence.
  - destruct e; (split; [done|]); (split; [done|]);
      (split; [try done; by intros file [= <-]|]);
      intros e' He'; try done; left; congruence.
Qed.

End NoticeMore.

Lemma from_notice_invariants_witness :
  let file :=
    NoticeChecker.mkNoticedFile (Path.of_string "/repo/harness/server.py")
      (Some (NoticeChecker.mkDate 2022 11 2)) (Some Scenario.noticed)
      NoticeChecker.CORRECT None in
  NoticeChecker.path file = NoticeChecker.notice_path Scenario.noticed
  /\ is_Some (NoticeChecker.modifiedDate file)
  /\ NoticeChecker.exception file = None
  /\ NoticeChecker.state file <> NoticeChecker.EXEMPT
  /\ NoticeChecker.state file <> NoticeChecker.ERROR
  /\ (NoticeChecker.state file = NoticeChecker.MISSING
      <-> NoticeChecker.notice file = None)
  /\ (NoticeChecker.notice file = None
      <-> NoticeChecker.notice_style Scenario.noticed = None)
  /\ (forall recorded, NoticeChecker.notice file = Some recorded ->
        recorded = Scenario.noticed).
Proof.
  apply (from_notice_invariants Scenario.on_disk Scenario.unchanged
           Scenario.committed Scenario.noticed).
  reflexivity.
Defined.

Lemma from_notice_raise_witness :
  Scenario.no_history (NoticeChecker.notice_path Scenario.noticed)
  = Raise OSError
  \/ (exists statDate,
        Scenario.no_history (NoticeChecker.notice_path Scenario.noticed)
        = Return statDate)
     /\ Scenario.unchanged (NoticeChecker.notice_path Scenario.noticed)
        = Raise OSError.
Proof.
  apply (from_notice_raise Scenario.no_history Scenario.unchanged
           Scenario.committed Scenario.noticed OSError).
  reflexivity.
Defined.

(** A file that cannot be decoded, and one whose history cannot be read. *)
Lemma from_path_examples :
  NoticeChecker.from_path Scenario.on_disk Scenario.unchanged
    Scenario.committed Scenario.undecodable Scenario.module_file
  = Return (NoticeChecker.mkNoticedFile Scenario.module_file None None
              NoticeChecker.ERROR (Some UnicodeDecodeError))
  /\ NoticeChecker.from_path Scenario.on_disk Scenario.unchanged
       Scenario.no_history Scenario.discovered Scenario.module_file
     = Return (NoticeChecker.mkNoticedFile Scenario.module_file
                 (Some (NoticeChecker.mkDate 2023 5 17))
                 (Some Scenario.noticed) NoticeChecker.INCORRECT_DATE None).
Proof. split; reflexivity. Qed.


